(** * PostureCare (ProyectoIntegrador.c): sensing-to-state pipeline

    A shallow embedding of [firmware/ProyectoIntegrador/main/ProyectoIntegrador.c]:
    the smoothing filter, the deviation angle, the sampler task with its
    calibration phase, the posture classifier, the indicator task and the
    Bluetooth telemetry formatter.

    Numbers.  The C [float] is IEEE 754 binary32.  The program text is written
    once against an arithmetic interface ([FloatArith]) and read in two ways:
    - [binary32]: the machine arithmetic (round to nearest even, 24 bit
      significand), executable, built on the parametric [SpecFloat] of the
      standard library, every operation rounded on its own;
    - [ideal]: arithmetic on the reals, every operation exact.
    [acosf] belongs to libm and is not fixed by IEEE 754: the program takes it
    as an argument ([acos] of the reals for [ideal]).
    Unsigned C integers are [Z] with the wrap-around written out. *)

From Stdlib Require Import ZArith List Bool Lia String Ascii.
From Stdlib Require Import SpecFloat DecimalString.
From Stdlib Require Import Reals Lra Machin.
Import ListNotations.

Local Open Scope Z_scope.
Local Open Scope list_scope.

(** ** Arithmetic interface *)

Class FloatArith (F : Type) : Type := {
  f_of_Z : Z -> F;            (* integer constant or integer-to-float conversion *)
  f_add : F -> F -> F;
  f_mul : F -> F -> F;
  f_div : F -> F -> F;
  f_sqrt : F -> F;            (* sqrtf *)
  f_abs : F -> F;             (* fabs *)
  f_gt : F -> F -> bool;      (* x > y *)
  f_lt : F -> F -> bool       (* x < y *)
}.

(** A decimal literal [n / 10^k] of type float, e.g. [0.8f] is [f_lit 8 1]:
    the quotient of two integers that are exact in the format, hence the
    correctly rounded value of the literal. *)
Definition f_lit {F} {A : FloatArith F} (n : Z) (k : nat) : F :=
  match k with
  | O => f_of_Z n
  | _ => f_div (f_of_Z n) (f_of_Z (10 ^ Z.of_nat k))
  end.

(** ** binary32 *)

Module Binary32.

Definition prec : Z := 24.
Definition emax : Z := 128.

Definition float32 : Type := spec_float.

Definition of_Z (n : Z) : float32 := binary_normalize prec emax n 0 false.
Definition add : float32 -> float32 -> float32 := SFadd prec emax.
Definition mul : float32 -> float32 -> float32 := SFmul prec emax.
Definition div : float32 -> float32 -> float32 := SFdiv prec emax.
Definition sqrt : float32 -> float32 := SFsqrt prec emax.
Definition abs : float32 -> float32 := SFabs.
Definition ltb : float32 -> float32 -> bool := SFltb.
Definition gtb (x y : float32) : bool := SFltb y x.
Definition eqb : float32 -> float32 -> bool := SFeqb.

(** Bit pattern of a float, as the 32-bit word a debugger shows. *)
Definition bits (x : float32) : Z :=
  let sign (s : bool) := if s then 2 ^ 31 else 0 in
  match x with
  | S754_zero s => sign s
  | S754_infinity s => sign s + 255 * 2 ^ 23
  | S754_nan => 255 * 2 ^ 23 + 2 ^ 22
  | S754_finite s m e =>
      if Z.pos m <? 2 ^ 23 then sign s + Z.pos m
      else sign s + (e + 150) * 2 ^ 23 + (Z.pos m - 2 ^ 23)
  end.

End Binary32.

Definition binary32 : FloatArith Binary32.float32 :=
  {| f_of_Z := Binary32.of_Z;
     f_add := Binary32.add;
     f_mul := Binary32.mul;
     f_div := Binary32.div;
     f_sqrt := Binary32.sqrt;
     f_abs := Binary32.abs;
     f_gt := Binary32.gtb;
     f_lt := Binary32.ltb |}.

(** ** Exact real arithmetic *)

Definition ideal : FloatArith R :=
  {| f_of_Z := IZR;
     f_add := Rplus;
     f_mul := Rmult;
     f_div := Rdiv;
     f_sqrt := sqrt;
     f_abs := Rabs;
     f_gt := fun x y => if Rlt_dec y x then true else false;
     f_lt := fun x y => if Rlt_dec x y then true else false |}.

(** ** Macros and FreeRTOS configuration *)

Definition PERIODO_MUESTREO_AC : Z := 1000.
Definition TIEMPO_ADVERTENCIA : Z := 3000.
Definition TIEMPO_ALERTA : Z := 5000.
Definition TIEMPO_CALIBRACION : Z := 3000.

Definition uint16 (n : Z) : Z := n mod 2 ^ 16.
Definition uint32 (n : Z) : Z := n mod 2 ^ 32.

(** FreeRTOS [pdMS_TO_TICKS]: [(TickType_t)ms * configTICK_RATE_HZ / 1000] on
    the 32-bit [TickType_t].  The tick rate [hz] is fixed by the build
    configuration (sdkconfig), which is not part of the program text. *)
Definition pdMS_TO_TICKS (hz ms : Z) : Z := uint32 (ms * hz) / 1000.

(** Argument of the [vTaskDelay] that ends an iteration of each loop. *)
Definition LeerAcelerometro_delay : Z := Z.quot 1000 PERIODO_MUESTREO_AC.
Definition ProcesarPostura_delay (hz : Z) : Z := pdMS_TO_TICKS hz PERIODO_MUESTREO_AC.

(** ** Outputs of the indicator task *)

Record indicadores : Type := {
  led_1 : bool;    (* green *)
  led_2 : bool;    (* yellow *)
  led_3 : bool;    (* red *)
  buzzer : bool
}.

(** Which arm of [switch (posture_state)] runs; the two switches of the
    program ([ActualizarIndicadores] and [Bluetooth]) have the same arms. *)
Inductive switch_arm : Type := Case0 | Case1 | Case2 | CaseDefault.

Definition switch_posture_state (ps : Z) : switch_arm :=
  if ps =? 0 then Case0
  else if ps =? 1 then Case1
  else if ps =? 2 then Case2
  else CaseDefault.

(** Body of the loop of [ActualizarIndicadores]. *)
Definition ActualizarIndicadores (ps : Z) (out : indicadores) : indicadores :=
  match switch_posture_state ps with
  | Case0 => {| led_1 := true; led_2 := false; led_3 := false; buzzer := false |}
  | Case1 => {| led_1 := false; led_2 := true; led_3 := false; buzzer := false |}
  | Case2 => {| led_1 := false; led_2 := false; led_3 := true; buzzer := true |}
  | CaseDefault => out
  end.

(** [estado_texto] as chosen by the switch of [Bluetooth]. *)
Definition estado_texto (ps : Z) : string :=
  match switch_posture_state ps with
  | Case0 => "Correcta"
  | Case1 => "Incorrecta-Advertencia"
  | Case2 => "Incorrecta-Alerta"
  | CaseDefault => "Desconocido"
  end.

(** ** The program, for any arithmetic *)

Section Program.

Context {F : Type} {A : FloatArith F}.

(** [configTICK_RATE_HZ] *)
Variable hz : Z.

(** [acosf] of libm *)
Variable acosf : F -> F.

Definition UMBRAL_INCLINACION : F := f_lit 12 0.

Record acelerometro_data_t : Type := {
  ax : F;
  ay : F;
  az : F;
  angulo : F
}.

(** The globals of the translation unit. *)
Record globals : Type := {
  datos_acelerometro : acelerometro_data_t;
  posture_state : Z;        (* volatile uint8_t *)
  bad_posture_time : Z;     (* volatile uint32_t *)
  base_x : F;
  base_y : F;
  base_z : F;
  calibrado : bool
}.

(** The locals of [LeerAcelerometro], alive across iterations. *)
Record sampler_locals : Type := {
  suma_x : F;
  suma_y : F;
  suma_z : F;
  muestras : Z;             (* uint16_t *)
  start_time : Z            (* TickType_t *)
}.

Definition set_datos (g : globals) (d : acelerometro_data_t) : globals :=
  {| datos_acelerometro := d;
     posture_state := posture_state g;
     bad_posture_time := bad_posture_time g;
     base_x := base_x g; base_y := base_y g; base_z := base_z g;
     calibrado := calibrado g |}.

Definition set_angulo (g : globals) (a : F) : globals :=
  let d := datos_acelerometro g in
  set_datos g {| ax := ax d; ay := ay d; az := az d; angulo := a |}.

Definition set_posture (g : globals) (ps t : Z) : globals :=
  {| datos_acelerometro := datos_acelerometro g;
     posture_state := ps;
     bad_posture_time := t;
     base_x := base_x g; base_y := base_y g; base_z := base_z g;
     calibrado := calibrado g |}.

Definition set_base (g : globals) (bx by' bz : F) : globals :=
  {| datos_acelerometro := datos_acelerometro g;
     posture_state := posture_state g;
     bad_posture_time := bad_posture_time g;
     base_x := bx; base_y := by'; base_z := bz;
     calibrado := true |}.

(** [static float CalcularAnguloDesviacion(float ax, float ay, float az)],
    reading the statics [base_x], [base_y], [base_z]. *)
Definition CalcularAnguloDesviacion (bx by' bz : F) (ax ay az : F) : F :=
  let dot := f_add (f_add (f_mul ax bx) (f_mul ay by')) (f_mul az bz) in
  let mag_base :=
    f_sqrt (f_add (f_add (f_mul bx bx) (f_mul by' by')) (f_mul bz bz)) in
  let mag_actual :=
    f_sqrt (f_add (f_add (f_mul ax ax) (f_mul ay ay)) (f_mul az az)) in
  let cos_theta := f_div dot (f_mul mag_base mag_actual) in
  let cos_theta := if f_gt cos_theta (f_lit 1 0) then f_lit 1 0 else cos_theta in
  let cos_theta := if f_lt cos_theta (f_lit (-1) 0) then f_lit (-1) 0 else cos_theta in
  f_mul (acosf cos_theta) (f_div (f_lit 180 0) (f_lit 314159 5)).

(** [static float FiltroSuavizado(float nuevo, float previo)] *)
Definition FiltroSuavizado (nuevo previo : F) : F :=
  f_add (f_mul (f_lit 8 1) previo) (f_mul (f_lit 2 1) nuevo).

(** What one iteration of [LeerAcelerometro] reads from outside: the three
    ADC values and the tick counter ([xTaskGetTickCount], read only while
    calibrating). *)
Record lectura : Type := {
  raw_x : F;
  raw_y : F;
  raw_z : F;
  now : Z
}.

Definition elapsed (l : sampler_locals) (i : lectura) : Z :=
  uint32 (now i - start_time l).

(** Body of the [while (true)] of [LeerAcelerometro]. *)
Definition LeerAcelerometro (i : lectura) (s : sampler_locals * globals)
  : sampler_locals * globals :=
  let (l, g) := s in
  let d := datos_acelerometro g in
  let x := FiltroSuavizado (raw_x i) (ax d) in
  let y := FiltroSuavizado (raw_y i) (ay d) in
  let z := FiltroSuavizado (raw_z i) (az d) in
  let g := set_datos g {| ax := x; ay := y; az := z; angulo := angulo d |} in
  if negb (calibrado g) then
    let l := {| suma_x := f_add (suma_x l) x;
                suma_y := f_add (suma_y l) y;
                suma_z := f_add (suma_z l) z;
                muestras := uint16 (muestras l + 1);
                start_time := start_time l |} in
    if pdMS_TO_TICKS hz TIEMPO_CALIBRACION <=? elapsed l i then
      (l, set_base g (f_div (suma_x l) (f_of_Z (muestras l)))
                     (f_div (suma_y l) (f_of_Z (muestras l)))
                     (f_div (suma_z l) (f_of_Z (muestras l))))
    else (l, g)
  else
    (l, set_angulo g
          (CalcularAnguloDesviacion (base_x g) (base_y g) (base_z g) x y z)).

(** The test of [ProcesarPostura]: [fabs(angulo) > UMBRAL_INCLINACION].
    Both operands are promoted to double, which changes neither the values
    nor their order. *)
Definition sobre_umbral (a : F) : bool := f_gt (f_abs a) UMBRAL_INCLINACION.

(** Body of the [while (true)] of [ProcesarPostura]. *)
Definition ProcesarPostura (g : globals) : globals :=
  if calibrado g then
    if sobre_umbral (angulo (datos_acelerometro g)) then
      let t := uint32 (bad_posture_time g + PERIODO_MUESTREO_AC) in
      if TIEMPO_ALERTA <=? t then set_posture g 2 t
      else if TIEMPO_ADVERTENCIA <=? t then set_posture g 1 t
      else set_posture g (posture_state g) t
    else set_posture g 0 0
  else g.

(** What an iteration of [ProcesarPostura] reads and does not write itself:
    [calibrado] and [datos_acelerometro.angulo], both written by
    [LeerAcelerometro] between two iterations. *)
Definition observar (c : bool) (a : F) (g : globals) : globals :=
  let d := datos_acelerometro g in
  {| datos_acelerometro := {| ax := ax d; ay := ay d; az := az d; angulo := a |};
     posture_state := posture_state g;
     bad_posture_time := bad_posture_time g;
     base_x := base_x g; base_y := base_y g; base_z := base_z g;
     calibrado := c |}.

(** The classifier tick by tick: at each iteration it finds some value of
    the flag and of the angle. *)
Definition tick (g : globals) (o : bool * F) : globals :=
  ProcesarPostura (observar (fst o) (snd o) g).

Definition ticks (os : list (bool * F)) (g : globals) : globals :=
  fold_left tick os g.

Definition estado (g : globals) : Z * Z :=
  (posture_state g, bad_posture_time g).

(** The pair (state, duration) after each tick. *)
Fixpoint traza (os : list (bool * F)) (g : globals) : list (Z * Z) :=
  match os with
  | [] => []
  | o :: os' => estado (tick g o) :: traza os' (tick g o)
  end.

(** The sampler alone: the iterations of [LeerAcelerometro] in order.  No
    other task writes what it reads (its locals, the three accelerations,
    the reference vector, [calibrado]). *)
Definition muestrear (ins : list lectura) (s : sampler_locals * globals)
  : sampler_locals * globals :=
  fold_left (fun s i => LeerAcelerometro i s) ins s.

(** The successive outputs of the filter on one axis, from the stored
    value [prev]. *)
Fixpoint suavizar (prev : F) (raws : list F) : list F :=
  match raws with
  | [] => []
  | r :: rs => FiltroSuavizado r prev :: suavizar (FiltroSuavizado r prev) rs
  end.

(** The smoothed samples of one axis ([eje] is [raw_x], [raw_y] or
    [raw_z]) over the iterations [ins], the stored value being 0 at start. *)
Definition suavizadas (eje : lectura -> F) (ins : list lectura) : list F :=
  suavizar (f_of_Z 0) (map eje ins).

(** A sum accumulated from [0] in the order of the list, as [suma += x]. *)
Definition f_sum (xs : list F) : F := fold_left f_add xs (f_of_Z 0).

(** *** The four tasks together

    The tasks share the globals without locks.  An execution is a sequence
    of loop iterations, each run to its [vTaskDelay]; [Bluetooth] only
    reads, so it has no event of its own. *)
Inductive event : Type :=
| Muestreo (i : lectura)     (* an iteration of LeerAcelerometro *)
| Evaluacion                 (* an iteration of ProcesarPostura *)
| Indicacion.                (* an iteration of ActualizarIndicadores *)

Record system : Type := {
  locals : sampler_locals;
  shared : globals;
  salidas : indicadores
}.

Definition step (s : system) (e : event) : system :=
  match e with
  | Muestreo i =>
      let (l, g) := LeerAcelerometro i (locals s, shared s) in
      {| locals := l; shared := g; salidas := salidas s |}
  | Evaluacion =>
      {| locals := locals s; shared := ProcesarPostura (shared s);
         salidas := salidas s |}
  | Indicacion =>
      {| locals := locals s; shared := shared s;
         salidas := ActualizarIndicadores (posture_state (shared s)) (salidas s) |}
  end.

Definition run (es : list event) (s : system) : system := fold_left step es s.

(** State at the start of the tasks: zeroed globals, the locals as
    initialised at the top of [LeerAcelerometro] with the tick counter read
    as [t0]. *)
Definition globals0 : globals :=
  {| datos_acelerometro :=
       {| ax := f_of_Z 0; ay := f_of_Z 0; az := f_of_Z 0; angulo := f_of_Z 0 |};
     posture_state := 0;
     bad_posture_time := 0;
     base_x := f_of_Z 0; base_y := f_of_Z 0; base_z := f_of_Z 0;
     calibrado := false |}.

Definition locals0 (t0 : Z) : sampler_locals :=
  {| suma_x := f_of_Z 0; suma_y := f_of_Z 0; suma_z := f_of_Z 0;
     muestras := 0; start_time := t0 |}.

Definition system0 (t0 : Z) (leds : indicadores) : system :=
  {| locals := locals0 t0; shared := globals0; salidas := leds |}.

End Program.

(** ** Telemetry text (binary32 only: it prints the floats) *)

Module Printf.

Definition digits (n : Z) : string := NilZero.string_of_uint (N.to_uint (Z.to_N n)).

(** [|x| * 100] rounded to an integer, to nearest with ties to even, for
    [|x| = m * 2^e]. *)
Definition centesimas (m : positive) (e : Z) : Z :=
  let n := Z.pos m * 100 in
  if 0 <=? e then n * 2 ^ e
  else
    let d := 2 ^ (- e) in
    let q := n / d in
    match 2 * (n mod d) ?= d with
    | Lt => q
    | Gt => q + 1
    | Eq => if Z.even q then q else q + 1
    end.

Local Open Scope string_scope.

Definition signo (s : bool) : string := if s then "-" else "".

(** The conversion [%.2f] of printf applied to a float (promoted to double
    without change of value): sign, integer part, point, two decimals of
    the exact value rounded.  [spec_float] has a single NaN, without sign:
    a C library prints a NaN as nan or -nan after its sign bit, which is
    not represented here. *)
Definition fmt_2f (x : Binary32.float32) : string :=
  match x with
  | S754_nan => "nan"
  | S754_infinity s => signo s ++ "inf"
  | S754_zero s => signo s ++ "0.00"
  | S754_finite s m e =>
      let c := centesimas m e in
      let frac := (c mod 100)%Z in
      signo s ++ digits (c / 100)%Z ++ "."
        ++ (if (frac <? 10)%Z then "0" else "") ++ digits frac
  end.

Definition nl : string := String "010"%char EmptyString.

(** [snprintf(buffer, size, ...)] keeps at most [size - 1] characters. *)
Definition snprintf (size : nat) (text : string) : string :=
  substring 0 (size - 1) text.

End Printf.

(** Body of the loop of [Bluetooth]: the text handed to [BleSendString]. *)
Definition Bluetooth (g : @globals Binary32.float32) : string :=
  let d := datos_acelerometro g in
  Printf.snprintf 124
    ("*X" ++ Printf.fmt_2f (ax d) ++ "g" ++ Printf.nl
     ++ "*Y" ++ Printf.fmt_2f (ay d) ++ "g" ++ Printf.nl
     ++ "*Z" ++ Printf.fmt_2f (az d) ++ "g" ++ Printf.nl
     ++ "*A" ++ Printf.fmt_2f (angulo d) ++ Printf.nl
     ++ "*E" ++ estado_texto (posture_state g) ++ Printf.nl)%string.


(** ** Notions used in the statements *)

(** The reading of (state, duration) that the thresholds suggest: Correct
    under the warning time, Warning from it up to the alert time, Alert from
    the alert time on. *)
Definition coherent (st : Z * Z) : Prop :=
  let (ps, t) := st in
  (ps = 0 <-> t < TIEMPO_ADVERTENCIA) /\
  (ps = 1 <-> TIEMPO_ADVERTENCIA <= t < TIEMPO_ALERTA) /\
  (ps = 2 <-> TIEMPO_ALERTA <= t).

(** The values the comment on [posture_state] gives it. *)
Definition posture_ok (ps : Z) : Prop := ps = 0 \/ ps = 1 \/ ps = 2.

(** Tick counts read at successive iterations of a loop that blocks in
    [vTaskDelay(d)] each time: every reading is at least [d] ticks after the
    previous one ([lo] bounds the first from below). *)
Fixpoint ticks_advance (d lo : Z) (es : list Z) : Prop :=
  match es with
  | [] => True
  | e :: es' => lo <= e /\ ticks_advance d (e + d) es'
  end.

Section Calibrando.

Context {F : Type} {A : FloatArith F}.

(** The state reached while the window has not elapsed. *)
Record calibrando (t0 : Z) (ins : list (@lectura F))
  (s : @sampler_locals F * @globals F) : Prop := {
  cal_flag : calibrado (snd s) = false;
  cal_muestras : muestras (fst s) = Z.of_nat (List.length ins);
  cal_start : start_time (fst s) = t0;
  cal_suma_x : suma_x (fst s) = f_sum (suavizadas raw_x ins);
  cal_suma_y : suma_y (fst s) = f_sum (suavizadas raw_y ins);
  cal_suma_z : suma_z (fst s) = f_sum (suavizadas raw_z ins);
  cal_ax : ax (datos_acelerometro (snd s)) = last (suavizadas raw_x ins) (f_of_Z 0);
  cal_ay : ay (datos_acelerometro (snd s)) = last (suavizadas raw_y ins) (f_of_Z 0);
  cal_az : az (datos_acelerometro (snd s)) = last (suavizadas raw_z ins) (f_of_Z 0)
}.

End Calibrando.

(** Magnitude of a vector of reals. *)
Definition norma (x y z : R) : R := sqrt (x * x + y * y + z * z)%R.

(** The conversion factor of the program, [180.0f / 3.14159f], in exact
    arithmetic. *)
Definition grados_por_radian : R := (180 / (314159 / 100000))%R.

(** ** Concrete values for the examples *)

Module Ejemplo.

Definition f32 (n : Z) (k : nat) : Binary32.float32 := f_lit (A := binary32) n k.

Definition inicio : @globals Binary32.float32 := globals0 (A := binary32).

(** 4294968 ticks that all find 15 degrees: 49.7 days of bad posture. *)
Definition dias_50 : list (bool * Binary32.float32) :=
  repeat (true, f32 15 0) (N.to_nat 4294968).

(** The reading of the telemetry example: 1.23, -0.50, 9.81, 15.00, the
    state and the remaining globals left open. *)
Definition telemetria (ps t : Z) (bx by' bz : Binary32.float32) (c : bool)
  : @globals Binary32.float32 :=
  {| datos_acelerometro :=
       {| ax := f32 123 2; ay := f32 (-50) 2; az := f32 981 2;
          angulo := f32 1500 2 |};
     posture_state := ps;
     bad_posture_time := t;
     base_x := bx; base_y := by'; base_z := bz;
     calibrado := c |}.

(** Three iterations of the sampler at 100 ticks per second (window of 300
    ticks), started at tick 50, on exact arithmetic. *)
Definition lecturas_pre : list (@lectura R) :=
  [ {| raw_x := 1%R; raw_y := 2%R; raw_z := 10%R; now := 51 |};
    {| raw_x := 2%R; raw_y := 2%R; raw_z := 9%R; now := 200 |} ].

Definition lectura_ult : @lectura R :=
  {| raw_x := 3%R; raw_y := 2%R; raw_z := 10%R; now := 350 |}.

(** The float nearest to pi, 0x40490FDB, which libm returns for
    [acosf(-1.0f)]. *)
Definition pi_f : Binary32.float32 := S754_finite false 13176795 (-22).

End Ejemplo.

(** ** Notions used in the further properties *)

Section Racha.

Context {F : Type} {A : FloatArith F}.

(** The classifier once calibrated: every tick finds the flag set. *)
Definition calibradas (angles : list F) : list (bool * F) :=
  map (fun a => (true, a)) angles.

(** Length of the streak of evaluations over the threshold that ends the
    list [angles] (0 when the last one is not over it). *)
Definition racha (angles : list F) : Z :=
  fold_left (fun k a => if sobre_umbral a then k + 1 else 0) angles 0.

End Racha.

(** The state the two time thresholds give to a streak of [k] ticks of
    [PERIODO_MUESTREO_AC] ms. *)
Definition estado_de_racha (k : Z) : Z :=
  if k * PERIODO_MUESTREO_AC <? TIEMPO_ADVERTENCIA then 0
  else if k * PERIODO_MUESTREO_AC <? TIEMPO_ALERTA then 1
  else 2.


(** What stays true of (state, duration) even after the 32-bit duration has
    wrapped around. *)
Definition consistent (st : Z * Z) : Prop :=
  let (ps, t) := st in
  0 <= t < 2 ^ 32 /\
  (ps = 0 -> t < TIEMPO_ADVERTENCIA) /\
  (ps = 1 <-> TIEMPO_ADVERTENCIA <= t < TIEMPO_ALERTA) /\
  (TIEMPO_ALERTA <= t -> ps = 2).

Section Acumulando.

Context {F : Type} {A : FloatArith F}.

(** The locals and the stored accelerations after the iterations [ins],
    none of which saw the window elapsed; the count is the 16-bit one. *)
Record acumulando (t0 : Z) (ins : list (@lectura F))
  (s : @sampler_locals F * @globals F) : Prop := {
  acu_flag : calibrado (snd s) = false;
  acu_muestras : muestras (fst s) = uint16 (Z.of_nat (List.length ins));
  acu_start : start_time (fst s) = t0;
  acu_suma_x : suma_x (fst s) = f_sum (suavizadas raw_x ins);
  acu_suma_y : suma_y (fst s) = f_sum (suavizadas raw_y ins);
  acu_suma_z : suma_z (fst s) = f_sum (suavizadas raw_z ins);
  acu_ax : ax (datos_acelerometro (snd s)) = last (suavizadas raw_x ins) (f_of_Z 0);
  acu_ay : ay (datos_acelerometro (snd s)) = last (suavizadas raw_y ins) (f_of_Z 0);
  acu_az : az (datos_acelerometro (snd s)) = last (suavizadas raw_z ins) (f_of_Z 0)
}.

(** Whether some iteration of [ins] read the tick counter with the
    calibration window elapsed since [t0]. *)
Definition ventana_vista (hz t0 : Z) (ins : list (@lectura F)) : bool :=
  existsb (fun i => pdMS_TO_TICKS hz TIEMPO_CALIBRACION <=? uint32 (now i - t0)) ins.

End Acumulando.

(** A float that is a zero of either sign or NaN. *)
Definition cero_o_nan (x : Binary32.float32) : bool :=
  match x with
  | S754_zero _ | S754_nan => true
  | _ => false
  end.

(** FreeRTOS [portTICK_PERIOD_MS]: [(TickType_t)1000 / configTICK_RATE_HZ]. *)
Definition portTICK_PERIOD_MS (hz : Z) : Z := 1000 / hz.

(** Argument of the [vTaskDelay] that ends an iteration of [Bluetooth]. *)
Definition Bluetooth_delay (hz : Z) : Z := 100 / portTICK_PERIOD_MS hz.

(** ** More concrete values *)

Module Ejemplo2.

Definition apagados : indicadores :=
  {| led_1 := false; led_2 := false; led_3 := false; buzzer := false |}.

(** The three iterations of [Ejemplo] as events of the sampler, at 100
    ticks per second from tick 50: the third one ends the calibration. *)
Definition calibracion : list (@event R) :=
  map Muestreo (Ejemplo.lecturas_pre ++ [Ejemplo.lectura_ult]).

(** Four iterations one tick apart at 3 ticks per second (window of 9 ticks
    by [pdMS_TO_TICKS]), read from tick 0 on. *)
Definition lecturas_lentas : list (@lectura R) :=
  map (fun t => {| raw_x := 0%R; raw_y := 0%R; raw_z := 1%R; now := t |})
    [0; 1; 2; 3; 4; 5; 6; 7; 8; 9].

End Ejemplo2.
(** ** Notions for the range of the angle on binary32 *)

Section Coseno.

Context {F : Type} {A : FloatArith F}.

(** [cos_theta] of [CalcularAnguloDesviacion] as first assigned (source
    lines 92 to 95), before the two clamps. *)
Definition cos_theta (bx by' bz ax ay az : F) : F :=
  let dot := f_add (f_add (f_mul ax bx) (f_mul ay by')) (f_mul az bz) in
  let mag_base :=
    f_sqrt (f_add (f_add (f_mul bx bx) (f_mul by' by')) (f_mul bz bz)) in
  let mag_actual :=
    f_sqrt (f_add (f_add (f_mul ax ax) (f_mul ay ay)) (f_mul az az)) in
  f_div dot (f_mul mag_base mag_actual).

(** The two clamps (source lines 98 to 101). *)
Definition recortar (c : F) : F :=
  let c := if f_gt c (f_lit 1 0) then f_lit 1 0 else c in
  if f_lt c (f_lit (-1) 0) then f_lit (-1) 0 else c.

End Coseno.

Definition es_nan (x : Binary32.float32) : bool :=
  match x with
  | S754_nan => true
  | _ => false
  end.

(** 0x4334000A = 180.000152587890625, the product on binary32 of the float
    nearest to pi and [180.0f / 3.14159f]. *)
Definition angulo_max : Binary32.float32 := S754_finite false 11796490 (-16).

(** What is asked of libm's [acosf]: for an argument between -1 and 1 it
    returns a float of the format, between 0 and the float nearest to pi. *)
Definition acosf_en_rango (acosf : Binary32.float32 -> Binary32.float32) : Prop :=
  forall c,
    SFleb (Binary32.of_Z (-1)) c = true -> SFleb c (Binary32.of_Z 1) = true ->
    valid_binary 24 128 (acosf c) = true /\
    SFleb (S754_zero false) (acosf c) = true /\
    SFleb (acosf c) Ejemplo.pi_f = true.

(** The float that the rounding of [SpecFloat] builds from a mantissa [m2]
    already rounded to an integer and its exponent [e1]: one more shift if
    the rounding carried into a 25th bit. *)
Definition forma (m2 e1 : Z) : spec_float :=
  let n2 := fexp 24 128 (Zdigits2 m2 + e1) - e1 in
  let m3 := if 0 <? n2 then m2 / 2 ^ n2 else m2 in
  let e3 := if 0 <? n2 then e1 + n2 else e1 in
  match m3 with
  | Z0 => S754_zero false
  | Zpos p => if e3 <=? 104 then S754_finite false p e3 else S754_infinity false
  | Zneg _ => S754_nan
  end.

(** A step function that meets [acosf_en_rango], to show the contract can
    be met: the float nearest to pi up to -1, 0 from 1 on, half of the
    former in between (the values of [acosf] at -1, 1 and 0). *)
Definition acosf_escalon (c : Binary32.float32) : Binary32.float32 :=
  if SFleb c (Binary32.of_Z (-1)) then Ejemplo.pi_f
  else if SFleb (Binary32.of_Z 1) c then S754_zero false
  else S754_finite false 13176795 (-23).

(** * Properties *)

Local Open Scope list_scope.

(** The literals of the program on binary32 have the bit patterns a C
    compiler gives them. *)
Lemma literales_binary32 :
  map Binary32.bits
    [Ejemplo.f32 8 1; Ejemplo.f32 2 1; Ejemplo.f32 12 0; Ejemplo.f32 1 0;
     Ejemplo.f32 (-1) 0; Ejemplo.f32 180 0; Ejemplo.f32 314159 5]
  = [0x3F4CCCCD; 0x3E4CCCCD; 0x41400000; 0x3F800000;
     0xBF800000; 0x43340000; 0x40490FD0].
Proof. reflexivity. Qed.

(** ** The classifier, one tick at a time *)

Section Classifier.

Context {F : Type} {A : FloatArith F}.

Implicit Types (g : @globals F) (a : F) (os : list (bool * F)).

Lemma tick_uncalibrated g a : tick g (false, a) = observar false a g.
Proof. reflexivity. Qed.

Lemma estado_tick_reset g a :
  sobre_umbral a = false -> estado (tick g (true, a)) = (0, 0).
Proof.
  intros Ha. unfold tick, ProcesarPostura. cbn [fst snd observar calibrado
    datos_acelerometro angulo]. rewrite Ha. reflexivity.
Qed.

Lemma estado_tick_over g a :
  sobre_umbral a = true ->
  estado (tick g (true, a)) =
    let t := uint32 (bad_posture_time g + PERIODO_MUESTREO_AC) in
    (if TIEMPO_ALERTA <=? t then 2
     else if TIEMPO_ADVERTENCIA <=? t then 1 else posture_state g, t).
Proof.
  intros Ha. unfold tick, ProcesarPostura. cbn [fst snd observar calibrado
    datos_acelerometro angulo posture_state bad_posture_time]. rewrite Ha.
  cbv zeta.
  destruct (TIEMPO_ALERTA <=? _); [reflexivity|].
  destruct (TIEMPO_ADVERTENCIA <=? _); reflexivity.
Qed.

Lemma estado_tick_idle g a : estado (tick g (false, a)) = estado g.
Proof. reflexivity. Qed.

Lemma estado_tick_over_from g a p t :
  estado g = (p, t) -> sobre_umbral a = true ->
  estado (tick g (true, a)) =
    let t' := uint32 (t + PERIODO_MUESTREO_AC) in
    (if TIEMPO_ALERTA <=? t' then 2
     else if TIEMPO_ADVERTENCIA <=? t' then 1 else p, t').
Proof.
  intros Hg Ha. rewrite (estado_tick_over _ _ Ha).
  injection Hg as -> ->. reflexivity.
Qed.

(** C1.  From (Correct, 0) with the flag set, five ticks that find the angle
    over the threshold leave the states Correct, Correct, Warning, Warning,
    Alert (durations 1000 .. 5000 ms), and a sixth tick that finds it not
    over the threshold leaves (Correct, 0). *)
Theorem five_bad_ticks_then_reset g a1 a2 a3 a4 a5 a6 :
  estado g = (0, 0) ->
  sobre_umbral a1 = true -> sobre_umbral a2 = true ->
  sobre_umbral a3 = true -> sobre_umbral a4 = true ->
  sobre_umbral a5 = true -> sobre_umbral a6 = false ->
  traza [(true, a1); (true, a2); (true, a3); (true, a4); (true, a5); (true, a6)] g
  = [(0, 1000); (0, 2000); (1, 3000); (1, 4000); (2, 5000); (0, 0)].
Proof.
  intros H0 H1 H2 H3 H4 H5 H6. cbn [traza].
  set (g1 := tick g (true, a1)).
  set (g2 := tick g1 (true, a2)).
  set (g3 := tick g2 (true, a3)).
  set (g4 := tick g3 (true, a4)).
  set (g5 := tick g4 (true, a5)).
  assert (E1 : estado g1 = (0, 1000))
    by (subst g1; rewrite (estado_tick_over_from _ _ _ _ H0 H1); reflexivity).
  assert (E2 : estado g2 = (0, 2000))
    by (subst g2; rewrite (estado_tick_over_from _ _ _ _ E1 H2); reflexivity).
  assert (E3 : estado g3 = (1, 3000))
    by (subst g3; rewrite (estado_tick_over_from _ _ _ _ E2 H3); reflexivity).
  assert (E4 : estado g4 = (1, 4000))
    by (subst g4; rewrite (estado_tick_over_from _ _ _ _ E3 H4); reflexivity).
  assert (E5 : estado g5 = (2, 5000))
    by (subst g5; rewrite (estado_tick_over_from _ _ _ _ E4 H5); reflexivity).
  rewrite E1, E2, E3, E4, E5, (estado_tick_reset _ _ H6). reflexivity.
Qed.

(** Any tick is one of three: idle (flag clear), reset, or accumulate. *)
Lemma estado_tick_cases g c a :
  estado (tick g (c, a)) = estado g \/
  estado (tick g (c, a)) = (0, 0) \/
  estado (tick g (c, a)) =
    (let t := uint32 (bad_posture_time g + PERIODO_MUESTREO_AC) in
     (if TIEMPO_ALERTA <=? t then 2
      else if TIEMPO_ADVERTENCIA <=? t then 1 else posture_state g, t)).
Proof.
  destruct c.
  - destruct (sobre_umbral a) eqn:Ha.
    + right; right. now apply estado_tick_over.
    + right; left. now apply estado_tick_reset.
  - left. apply estado_tick_idle.
Qed.

Lemma ticks_snoc os o g : ticks (os ++ [o]) g = tick (ticks os g) o.
Proof. unfold ticks. now rewrite fold_left_app. Qed.

Lemma ticks_app os1 os2 g : ticks (os1 ++ os2) g = ticks os2 (ticks os1 g).
Proof. unfold ticks. now rewrite fold_left_app. Qed.

Lemma coherent_bounded_run os :
  forall g,
    estado g = (0, 0) ->
    Z.of_nat (List.length os) <= 4294967 ->
    coherent (estado (ticks os g)) /\
    0 <= bad_posture_time (ticks os g) <= 1000 * Z.of_nat (List.length os).
Proof.
  induction os as [|o os IH] using rev_ind; intros g Hg Hlen.
  - cbn [ticks fold_left List.length]. rewrite Hg. injection Hg as Hp Ht.
    rewrite Ht. unfold coherent, TIEMPO_ADVERTENCIA, TIEMPO_ALERTA. lia.
  - rewrite length_app in *. cbn [List.length] in *.
    destruct (IH g Hg ltac:(lia)) as [Hc Hb]. clear IH.
    rewrite ticks_snoc. set (g' := ticks os g) in *.
    destruct o as [c a].
    assert (Ht : bad_posture_time (tick g' (c, a)) = snd (estado (tick g' (c, a))))
      by reflexivity.
    rewrite Ht. clear Ht.
    destruct (estado_tick_cases g' c a) as [E|[E|E]]; rewrite E.
    + split; [exact Hc|]. cbn [estado snd]. lia.
    + split; [|cbn [snd]; lia].
      unfold coherent, TIEMPO_ADVERTENCIA, TIEMPO_ALERTA. lia.
    + cbv zeta. unfold uint32, PERIODO_MUESTREO_AC.
      rewrite Z.mod_small by lia. cbn [snd]. split; [|lia].
      unfold coherent, estado in *.
      unfold TIEMPO_ADVERTENCIA, TIEMPO_ALERTA in *.
      destruct (5000 <=? bad_posture_time g' + 1000) eqn:E5;
        [|destruct (3000 <=? bad_posture_time g' + 1000) eqn:E3]; lia.
Qed.

(** Short of the wrap the thresholds read both ways: from (Correct, 0),
    after every tick of a run of at most 4294967 ticks, whatever the flag at
    each tick, the state is Correct iff the duration is under 3000 ms,
    Warning iff it is in [3000, 5000), Alert iff it is at least 5000 ms. *)
Lemma coherent_until_wrap os g :
  estado g = (0, 0) ->
  Z.of_nat (List.length os) <= 4294967 ->
  coherent (estado (ticks os g)).
Proof. intros Hg Hlen. now apply coherent_bounded_run. Qed.

(** Once the duration has reached the alert time, more bad ticks keep
    Alert and add 1000 ms each, as long as 32 bits hold the sum. *)
Lemma ticks_repeat_over a (Ha : sobre_umbral a = true) (n : nat) :
  forall g p t,
    estado g = (p, t) ->
    0 < Z.of_nat n -> 0 <= t -> TIEMPO_ALERTA <= t + 1000 ->
    t + 1000 * Z.of_nat n < 2 ^ 32 ->
    estado (ticks (repeat (true, a) n) g) = (2, t + 1000 * Z.of_nat n).
Proof.
  induction n as [|n IH]; intros g p t Hg Hn Ht H5 Hmax; [lia|].
  cbn [repeat ticks fold_left]. fold (ticks (repeat (true, a) n) (tick g (true, a))).
  assert (E : estado (tick g (true, a)) = (2, t + 1000)).
  { rewrite (estado_tick_over_from _ _ _ _ Hg Ha). cbv zeta.
    unfold uint32, PERIODO_MUESTREO_AC. rewrite Z.mod_small by lia.
    unfold TIEMPO_ALERTA in *.
    destruct (5000 <=? t + 1000) eqn:E5; [reflexivity|lia]. }
  destruct n as [|n].
  - cbn [repeat ticks fold_left]. rewrite E. f_equal; lia.
  - rewrite (IH _ _ _ E) by (unfold TIEMPO_ALERTA in *; lia). f_equal; lia.
Qed.

End Classifier.

(** ** The classifier on binary32 angles *)

Section ClassifierBinary32.

Import Ejemplo.

#[local] Existing Instance binary32.

Lemma five_bad_ticks_then_reset_witness :
  traza [(true, f32 15 0); (true, f32 135 1); (true, f32 (-20) 0);
         (true, f32 90 0); (true, f32 1201 2); (true, f32 12 0)] inicio
  = [(0, 1000); (0, 2000); (1, 3000); (1, 4000); (2, 5000); (0, 0)].
Proof. apply five_bad_ticks_then_reset; reflexivity. Defined.

Lemma coherent_until_wrap_witness :
  coherent (estado (ticks [(true, f32 15 0); (true, f32 15 0); (false, f32 15 0);
                           (true, f32 15 0); (true, f32 5 0)] inicio)).
Proof. apply coherent_until_wrap; [reflexivity | cbn; lia]. Defined.

Lemma sobre_umbral_15 : sobre_umbral (f32 15 0) = true.
Proof. reflexivity. Qed.

Lemma estado_dias_50 : estado (ticks dias_50 inicio) = (2, 704).
Proof.
  unfold dias_50.
  replace (N.to_nat 4294968) with (4 + (N.to_nat 4294963 + 1))%nat by lia.
  rewrite !repeat_app, !ticks_app.
  assert (E4 : estado (ticks (repeat (true, f32 15 0) 4) inicio) = (1, 4000))
    by reflexivity.
  set (g4 := ticks (repeat (true, f32 15 0) 4) inicio) in *.
  assert (Hn : Z.of_nat (N.to_nat 4294963) = 4294963)
    by (rewrite N_nat_Z; reflexivity).
  pose proof (ticks_repeat_over _ sobre_umbral_15 (N.to_nat 4294963)
                g4 1 4000 E4) as E'.
  rewrite Hn in E'.
  specialize (E' ltac:(lia) ltac:(lia) ltac:(unfold TIEMPO_ALERTA; lia) ltac:(lia)).
  set (g' := ticks (repeat (true, f32 15 0) (N.to_nat 4294963)) g4) in *.
  change (repeat (true, f32 15 0) 1) with [(true, f32 15 0)].
  cbn [ticks fold_left].
  rewrite (estado_tick_over_from _ _ _ _ E' sobre_umbral_15). reflexivity.
Qed.

(** C9.  The code at the failing input: from (Correct, 0), after 4294968
    evaluations in a row at 15 degrees the 32-bit duration has wrapped to
    704 ms while the state is still Alert, so Alert no longer means 5000 ms
    or more; and three evaluations later, the posture still bad, the state
    has dropped from Alert to Warning at 3704 ms. *)
Theorem wrap_breaks_coherence :
  estado inicio = (0, 0) /\
  estado (ticks dias_50 inicio) = (2, 704) /\
  ~ coherent (estado (ticks dias_50 inicio)) /\
  estado (ticks (dias_50 ++ repeat (true, f32 15 0) 3) inicio) = (1, 3704).
Proof.
  pose proof estado_dias_50 as E.
  split; [reflexivity|]. split; [exact E|]. split.
  - rewrite E. unfold coherent, TIEMPO_ALERTA. lia.
  - rewrite ticks_app. cbn [repeat ticks fold_left].
    set (g0 := ticks dias_50 inicio) in *.
    assert (E1 : estado (tick g0 (true, f32 15 0)) = (2, 1704))
      by (rewrite (estado_tick_over_from _ _ _ _ E sobre_umbral_15); reflexivity).
    set (g1 := tick g0 (true, f32 15 0)) in *.
    assert (E2 : estado (tick g1 (true, f32 15 0)) = (2, 2704))
      by (rewrite (estado_tick_over_from _ _ _ _ E1 sobre_umbral_15); reflexivity).
    set (g2 := tick g1 (true, f32 15 0)) in *.
    rewrite (estado_tick_over_from _ _ _ _ E2 sobre_umbral_15). reflexivity.
Qed.

Lemma eqb_UMBRAL_INCLINACION a :
  Binary32.eqb a UMBRAL_INCLINACION = true -> a = S754_finite false 12582912 (-20).
Proof.
  change UMBRAL_INCLINACION with (S754_finite false 12582912 (-20)).
  unfold Binary32.eqb, SFeqb, SFcompare.
  destruct a as [s|s| |s m e]; intros H; try discriminate H.
  - destruct s; discriminate H.
  - destruct s; [discriminate H|].
    destruct (Z.compare_spec e (-20)) as [He|_|_]; [|discriminate H..].
    destruct (Pos.compare_cont Eq m 12582912) eqn:Hm; [|discriminate H..].
    apply (Pos.compare_eq m 12582912) in Hm.
    now rewrite He, Hm.
Qed.

(** C7.  With the flag set, a tick that finds the angle equal to the
    threshold (angle == 12.0f) does not add to the duration: it leaves
    (Correct, 0), whatever the state before. *)
Theorem exact_threshold_resets (g : @globals Binary32.float32) a :
  Binary32.eqb a UMBRAL_INCLINACION = true ->
  estado (tick g (true, a)) = (0, 0).
Proof.
  intros Ha. apply eqb_UMBRAL_INCLINACION in Ha. subst a.
  now apply estado_tick_reset.
Qed.

Lemma exact_threshold_resets_witness :
  estado (tick (ticks [(true, f32 15 0); (true, f32 15 0); (true, f32 15 0)] inicio)
            (true, f32 120 1)) = (0, 0).
Proof. apply exact_threshold_resets. reflexivity. Defined.

End ClassifierBinary32.

(** ** The state variable under any interleaving of the tasks *)

Section PostureState.

Context {F : Type} {A : FloatArith F}.
Variable hz : Z.
Variable acosf : F -> F.

Lemma LeerAcelerometro_posture_state i l (g : @globals F) :
  posture_state (snd (LeerAcelerometro hz acosf i (l, g))) = posture_state g.
Proof.
  unfold LeerAcelerometro.
  cbn [calibrado set_datos].
  destruct (calibrado g); cbn [negb].
  - reflexivity.
  - destruct (_ <=? _); reflexivity.
Qed.

Lemma ProcesarPostura_posture_ok (g : @globals F) :
  posture_ok (posture_state g) -> posture_ok (posture_state (ProcesarPostura g)).
Proof.
  intros Hg. unfold ProcesarPostura, posture_ok.
  destruct (calibrado g); [|exact Hg].
  destruct (sobre_umbral _); [|cbn; auto].
  cbv zeta. destruct (TIEMPO_ALERTA <=? _); [cbn; auto|].
  destruct (TIEMPO_ADVERTENCIA <=? _); [cbn; auto|exact Hg].
Qed.

Lemma step_posture_ok (s : @system F) e :
  posture_ok (posture_state (shared s)) ->
  posture_ok (posture_state (shared (step hz acosf s e))).
Proof.
  intros Hs. destruct e as [i| |]; cbn [step].
  - pose proof (LeerAcelerometro_posture_state i (locals s) (shared s)) as E.
    destruct (LeerAcelerometro hz acosf i (locals s, shared s)) as [l g].
    cbn [shared snd] in *. now rewrite E.
  - cbn [shared]. now apply ProcesarPostura_posture_ok.
  - exact Hs.
Qed.

Lemma run_posture_ok es :
  forall s : @system F,
    posture_ok (posture_state (shared s)) ->
    posture_ok (posture_state (shared (run hz acosf es s))).
Proof.
  induction es as [|e es IH]; intros s Hs; [exact Hs|].
  cbn [run fold_left]. apply IH. now apply step_posture_ok.
Qed.

(** C10.  In every execution (any sequence of iterations of the three
    writing tasks, from the initial state) [posture_state] is 0, 1 or 2, so
    neither switch on it takes its default arm: the indicator task always
    sets its outputs and the label is never "Desconocido". *)
Theorem posture_state_in_range es t0 leds :
  let ps := posture_state (shared (run hz acosf es (system0 t0 leds))) in
  (ps = 0 \/ ps = 1 \/ ps = 2) /\
  switch_posture_state ps <> CaseDefault /\
  estado_texto ps <> "Desconocido"%string.
Proof.
  cbv zeta.
  assert (H : posture_ok (posture_state (shared (run hz acosf es (system0 t0 leds)))))
    by (apply run_posture_ok; left; reflexivity).
  split; [exact H|].
  destruct H as [-> | [-> | ->]]; split; discriminate.
Qed.

End PostureState.

(** ** The sampler and its calibration phase *)

Lemma ticks_advance_app d lo es1 es2 :
  ticks_advance d lo (es1 ++ es2) -> ticks_advance d lo es1.
Proof.
  revert lo. induction es1 as [|e es1 IH]; intros lo H; [exact I|].
  destruct H as [H1 H2]. split; [exact H1|]. now apply IH.
Qed.

(** Readings that advance by at least one tick and all stay under [w] are at
    most [w - lo]. *)
Lemma ticks_advance_length d w es :
  1 <= d ->
  forall lo,
    ticks_advance d lo es -> Forall (fun e => e < w) es ->
    Z.of_nat (List.length es) <= Z.max 0 (w - lo).
Proof.
  intros Hd. induction es as [|e es IH]; intros lo Hadv Hw; cbn [List.length]; [lia|].
  destruct Hadv as [Hlo Hadv]. inversion Hw as [|? ? He Hes]; subst.
  specialize (IH (e + d) Hadv Hes). lia.
Qed.

Section Sampler.

Context {F : Type} {A : FloatArith F}.
Variable hz : Z.
Variable acosf : F -> F.

Implicit Types (l : @sampler_locals F) (g : @globals F) (i : @lectura F)
  (pre ins : list (@lectura F)).

Local Abbreviation ventana := (pdMS_TO_TICKS hz TIEMPO_CALIBRACION).
Local Abbreviation correr := (muestrear hz acosf).
Local Abbreviation iterar := (LeerAcelerometro hz acosf).

Lemma muestrear_snoc ins i s :
  correr (ins ++ [i]) s = iterar i (correr ins s).
Proof. unfold muestrear. now rewrite fold_left_app. Qed.

Lemma last_cons (xs : list F) : forall x d, last (x :: xs) d = last xs x.
Proof.
  induction xs as [|y xs IH]; intros x d; [reflexivity|].
  change (last (x :: y :: xs) d) with (last (y :: xs) d).
  now rewrite !IH.
Qed.

Lemma suavizar_snoc (rs : list F) :
  forall prev r,
    suavizar prev (rs ++ [r])
    = suavizar prev rs ++ [FiltroSuavizado r (last (suavizar prev rs) prev)].
Proof.
  induction rs as [|r0 rs IH]; intros prev r; [reflexivity|].
  cbn [suavizar app]. rewrite IH. now rewrite last_cons.
Qed.

Lemma suavizadas_snoc eje ins i :
  suavizadas eje (ins ++ [i])
  = suavizadas eje ins
      ++ [FiltroSuavizado (eje i) (last (suavizadas eje ins) (f_of_Z 0))].
Proof. unfold suavizadas. rewrite map_app. cbn [map]. apply suavizar_snoc. Qed.

Lemma f_sum_snoc (xs : list F) x : f_sum (xs ++ [x]) = f_add (f_sum xs) x.
Proof. unfold f_sum. now rewrite fold_left_app. Qed.

Lemma calibrando_inicio t0 : calibrando t0 [] (locals0 t0, globals0).
Proof. constructor; reflexivity. Qed.

(** An iteration that finds the flag clear. *)
Lemma iterar_sin_calibrar l g i :
  calibrado g = false ->
  iterar i (l, g) =
    let x := FiltroSuavizado (raw_x i) (ax (datos_acelerometro g)) in
    let y := FiltroSuavizado (raw_y i) (ay (datos_acelerometro g)) in
    let z := FiltroSuavizado (raw_z i) (az (datos_acelerometro g)) in
    let g' := set_datos g {| ax := x; ay := y; az := z;
                             angulo := angulo (datos_acelerometro g) |} in
    let l' := {| suma_x := f_add (suma_x l) x;
                 suma_y := f_add (suma_y l) y;
                 suma_z := f_add (suma_z l) z;
                 muestras := uint16 (muestras l + 1);
                 start_time := start_time l |} in
    if ventana <=? uint32 (now i - start_time l) then
      (l', set_base g' (f_div (suma_x l') (f_of_Z (muestras l')))
                       (f_div (suma_y l') (f_of_Z (muestras l')))
                       (f_div (suma_z l') (f_of_Z (muestras l'))))
    else (l', g').
Proof.
  intros Hc. unfold LeerAcelerometro. cbn [calibrado set_datos].
  rewrite Hc. reflexivity.
Qed.

(** An iteration that finds the flag set leaves it set and does not touch
    the locals or the reference vector. *)
Lemma iterar_calibrado l g i :
  calibrado g = true ->
  calibrado (snd (iterar i (l, g))) = true /\ fst (iterar i (l, g)) = l.
Proof.
  intros Hc. unfold LeerAcelerometro. cbn [calibrado set_datos].
  rewrite Hc. cbn [negb fst snd calibrado set_angulo set_datos].
  split; [exact Hc|reflexivity].
Qed.

Lemma iterar_calibrando t0 ins i s :
  calibrando t0 ins s ->
  Z.of_nat (List.length ins) < 65535 ->
  uint32 (now i - t0) < ventana ->
  calibrando t0 (ins ++ [i]) (iterar i s).
Proof.
  intros [Hc Hm Hs Hx Hy Hz Hax Hay Haz] Hlen Hel.
  destruct s as [l g]. cbn [fst snd] in *.
  rewrite (iterar_sin_calibrar _ _ _ Hc). cbv zeta. rewrite Hs.
  destruct (ventana <=? uint32 (now i - t0)) eqn:E;
    [apply Z.leb_le in E; lia|].
  constructor; cbn [fst snd calibrado set_datos muestras start_time
                    suma_x suma_y suma_z datos_acelerometro ax ay az].
  - exact Hc.
  - rewrite Hm, length_app, Nat2Z.inj_add. unfold uint16.
    rewrite Z.mod_small; cbn [List.length]; lia.
  - reflexivity.
  - now rewrite suavizadas_snoc, f_sum_snoc, Hx, Hax.
  - now rewrite suavizadas_snoc, f_sum_snoc, Hy, Hay.
  - now rewrite suavizadas_snoc, f_sum_snoc, Hz, Haz.
  - now rewrite suavizadas_snoc, last_last, Hax.
  - now rewrite suavizadas_snoc, last_last, Hay.
  - now rewrite suavizadas_snoc, last_last, Haz.
Qed.

(** While the window has not elapsed the sampler only accumulates. *)
Lemma correr_calibrando t0 pre :
  Z.of_nat (List.length pre) <= 65535 ->
  Forall (fun i => uint32 (now i - t0) < ventana) pre ->
  calibrando t0 pre (correr pre (locals0 t0, globals0)).
Proof.
  induction pre as [|i pre IH] using rev_ind; intros Hlen Hpre.
  - apply calibrando_inicio.
  - rewrite length_app in Hlen. cbn [List.length] in Hlen.
    apply Forall_app in Hpre. destruct Hpre as [Hpre Hi].
    inversion Hi as [|? ? Hi' _]; subst.
    rewrite muestrear_snoc. apply iterar_calibrando; [|lia|exact Hi'].
    apply IH; [lia|exact Hpre].
Qed.

(** The iteration that finds the window elapsed: the division by the
    count and the flag. *)
Lemma iterar_finaliza t0 ins i s :
  calibrando t0 ins s ->
  Z.of_nat (List.length ins) < 65535 ->
  ventana <= uint32 (now i - t0) ->
  let s' := iterar i s in
  let n := Z.of_nat (List.length (ins ++ [i])) in
  calibrado (snd s') = true /\
  muestras (fst s') = n /\
  base_x (snd s') = f_div (f_sum (suavizadas raw_x (ins ++ [i]))) (f_of_Z n) /\
  base_y (snd s') = f_div (f_sum (suavizadas raw_y (ins ++ [i]))) (f_of_Z n) /\
  base_z (snd s') = f_div (f_sum (suavizadas raw_z (ins ++ [i]))) (f_of_Z n).
Proof.
  intros [Hc Hm Hs Hx Hy Hz Hax Hay Haz] Hlen Hel.
  destruct s as [l g]. cbn [fst snd] in *. cbv zeta.
  rewrite (iterar_sin_calibrar _ _ _ Hc). cbv zeta. rewrite Hs.
  destruct (ventana <=? uint32 (now i - t0)) eqn:E;
    [clear E|apply Z.leb_gt in E; lia].
  cbn [fst snd calibrado set_base muestras suma_x suma_y suma_z
       base_x base_y base_z].
  assert (Hn : uint16 (muestras l + 1) = Z.of_nat (List.length (ins ++ [i]))).
  { rewrite Hm, length_app, Nat2Z.inj_add. unfold uint16.
    rewrite Z.mod_small; cbn [List.length]; lia. }
  rewrite Hn, !suavizadas_snoc, !f_sum_snoc, Hx, Hy, Hz, Hax, Hay, Haz.
  repeat split; reflexivity.
Qed.

(** C5.  If the window elapses at the N-th iteration (1 <= N, and N within
    the 16 bits of [muestras]), that iteration sets, per axis, the
    reference vector to the sum of the N smoothed samples divided by N, and
    sets [calibrado], which was clear until then. *)
Theorem reference_is_mean pre ult t0 :
  let ins := pre ++ [ult] in
  let n := Z.of_nat (List.length ins) in
  n <= 65535 ->
  Forall (fun i => uint32 (now i - t0) < ventana) pre ->
  ventana <= uint32 (now ult - t0) ->
  let g := snd (correr ins (locals0 t0, globals0)) in
  calibrado (snd (correr pre (locals0 t0, globals0))) = false /\
  calibrado g = true /\
  base_x g = f_div (f_sum (suavizadas raw_x ins)) (f_of_Z n) /\
  base_y g = f_div (f_sum (suavizadas raw_y ins)) (f_of_Z n) /\
  base_z g = f_div (f_sum (suavizadas raw_z ins)) (f_of_Z n).
Proof.
  cbv zeta. intros Hn Hpre Hult.
  rewrite length_app in Hn. cbn [List.length] in Hn.
  assert (Hcal : calibrando t0 pre (correr pre (locals0 t0, globals0)))
    by (apply correr_calibrando; [lia|exact Hpre]).
  split; [apply (cal_flag _ _ _ Hcal)|].
  rewrite muestrear_snoc.
  destruct (iterar_finaliza t0 pre ult _ Hcal ltac:(lia) Hult)
    as (Hc & _ & Hx & Hy & Hz).
  auto.
Qed.

Lemma iterar_start_time l g i : start_time (fst (iterar i (l, g))) = start_time l.
Proof.
  unfold LeerAcelerometro. cbn [calibrado set_datos].
  destruct (calibrado g); cbn [negb]; [reflexivity|].
  destruct (_ <=? _); reflexivity.
Qed.

Lemma correr_start_time ins :
  forall s, start_time (fst (correr ins s)) = start_time (fst s).
Proof.
  induction ins as [|i ins IH] using rev_ind; intros s; [reflexivity|].
  rewrite muestrear_snoc. destruct (correr ins s) as [l g] eqn:E.
  rewrite iterar_start_time. specialize (IH s). now rewrite E in IH.
Qed.

(** The flag is still clear only if no iteration has seen the window
    elapsed. *)
Lemma sin_calibrar_ventana t0 pre :
  calibrado (snd (correr pre (locals0 t0, globals0))) = false ->
  Forall (fun i => uint32 (now i - t0) < ventana) pre.
Proof.
  induction pre as [|i pre IH] using rev_ind; intros Hc; [constructor|].
  rewrite muestrear_snoc in Hc.
  pose proof (correr_start_time pre (locals0 t0, globals0)) as Hs.
  destruct (correr pre (locals0 t0, globals0)) as [l g].
  cbn [fst snd locals0 start_time] in *.
  destruct (calibrado g) eqn:Hg.
  - destruct (iterar_calibrado l g i Hg) as [Hc' _]. congruence.
  - apply Forall_app. split; [now apply IH|].
    constructor; [|constructor].
    rewrite (iterar_sin_calibrar _ _ _ Hg) in Hc. cbv zeta in Hc.
    rewrite Hs in Hc.
    destruct (ventana <=? uint32 (now i - t0)) eqn:E.
    + discriminate Hc.
    + now apply Z.leb_gt in E.
Qed.

(** Under that timing the count at the end of calibration is within the 16
    bits of [muestras]. *)
Lemma muestras_en_rango pre i t0 :
  ventana < 65535 ->
  ticks_advance LeerAcelerometro_delay 0
    (map (fun j => uint32 (now j - t0)) (pre ++ [i])) ->
  Forall (fun j => uint32 (now j - t0) < ventana) pre ->
  Z.of_nat (List.length (pre ++ [i])) <= 65535.
Proof.
  intros Hw Hadv Hpre.
  rewrite map_app in Hadv. apply ticks_advance_app in Hadv.
  assert (Hlen : Z.of_nat (List.length pre) <= Z.max 0 (ventana - 0)).
  { rewrite <- (length_map (fun j => uint32 (now j - t0))).
    apply (ticks_advance_length LeerAcelerometro_delay); [reflexivity|exact Hadv|].
    apply Forall_map. exact Hpre. }
  rewrite length_app. cbn [List.length]. lia.
Qed.

(** C3.  In every execution of the sampler in which each iteration reads
    the tick counter at least [LeerAcelerometro_delay] (one) tick after the
    previous one, the window being under 65535 ticks, the iteration that
    computes the reference vector (the one that sets [calibrado]) divides
    by a count of at least 1. *)
Theorem divisor_at_least_one pre i t0 :
  ventana < 65535 ->
  ticks_advance LeerAcelerometro_delay 0
    (map (fun j => uint32 (now j - t0)) (pre ++ [i])) ->
  let s := correr pre (locals0 t0, globals0) in
  let s' := iterar i s in
  calibrado (snd s) = false ->
  calibrado (snd s') = true ->
  1 <= muestras (fst s') /\
  base_x (snd s') = f_div (suma_x (fst s')) (f_of_Z (muestras (fst s'))) /\
  base_y (snd s') = f_div (suma_y (fst s')) (f_of_Z (muestras (fst s'))) /\
  base_z (snd s') = f_div (suma_z (fst s')) (f_of_Z (muestras (fst s'))).
Proof.
  cbv zeta. intros Hw Hadv Hc Hc'.
  pose proof (sin_calibrar_ventana _ _ Hc) as Hpre.
  rewrite map_app in Hadv. apply ticks_advance_app in Hadv.
  assert (Hlen : Z.of_nat (List.length pre) <= Z.max 0 (ventana - 0)).
  { rewrite <- (length_map (fun j => uint32 (now j - t0))).
    apply (ticks_advance_length LeerAcelerometro_delay); [reflexivity|exact Hadv|].
    apply Forall_map. exact Hpre. }
  pose proof (correr_calibrando t0 pre ltac:(lia) Hpre) as Hcal.
  destruct Hcal as [_ Hm Hs _ _ _ _ _ _].
  destruct (correr pre (locals0 t0, globals0)) as [l g].
  cbn [fst snd] in *.
  rewrite (iterar_sin_calibrar _ _ _ Hc) in *. cbv zeta in *.
  destruct (ventana <=? uint32 (now i - start_time l)).
  - cbn [fst snd muestras suma_x suma_y suma_z set_base base_x base_y base_z].
    split; [|repeat split; reflexivity].
    rewrite Hm. unfold uint16. rewrite Z.mod_small; lia.
  - cbn [snd set_datos calibrado] in Hc'. congruence.
Qed.

End Sampler.

(** ** The deviation angle of opposite vectors *)

(** The reference (1, 0, 0) and the opposite reading (-1, 0, 0) on binary32,
    for a libm whose [acosf(-1.0f)] is the float nearest to pi: the result is
    0x4334000A, about 180.00015. *)
Lemma angulo_antiparalelo_binary32 (acosf : Binary32.float32 -> Binary32.float32) :
  acosf (Ejemplo.f32 (-1) 0) = Ejemplo.pi_f ->
  let a := CalcularAnguloDesviacion (A := binary32) acosf
             (Ejemplo.f32 1 0) (Ejemplo.f32 0 0) (Ejemplo.f32 0 0)
             (Ejemplo.f32 (-1) 0) (Ejemplo.f32 0 0) (Ejemplo.f32 0 0) in
  Binary32.bits a = 0x4334000A /\ Binary32.gtb a (Ejemplo.f32 180 0) = true.
Proof.
  intros H. cbv zeta.
  assert (E : CalcularAnguloDesviacion (A := binary32) acosf
             (Ejemplo.f32 1 0) (Ejemplo.f32 0 0) (Ejemplo.f32 0 0)
             (Ejemplo.f32 (-1) 0) (Ejemplo.f32 0 0) (Ejemplo.f32 0 0)
           = Binary32.mul (acosf (Ejemplo.f32 (-1) 0))
               (Binary32.div (Ejemplo.f32 180 0) (Ejemplo.f32 314159 5)))
    by reflexivity.
  rewrite E, H. vm_compute. split; reflexivity.
Qed.

(** On the reals the accumulated sum is the sum of the list, so a sum divided
    by the count is the arithmetic mean. *)
Lemma f_sum_ideal (xs : list R) : f_sum (A := ideal) xs = fold_right Rplus 0%R xs.
Proof.
  unfold f_sum. cbn [ideal f_add f_of_Z].
  apply fold_symmetric; intros; ring.
Qed.

(** ** The deviation angle in exact arithmetic *)

Section Angle.

Local Open Scope R_scope.

Lemma PI_above_literal : 314159 / 100000 < PI.
Proof.
  pose proof (PI_2_3_7_ineq 2) as [H _].
  unfold sum_f_R0, tg_alt, PI_2_3_7_tg, Ratan_seq in H.
  simpl in H. lra.
Qed.

Lemma acos_minus_1 : acos (-1) = PI.
Proof. replace (-1) with (Ropp 1) by lra. rewrite acos_opp, acos_1. lra. Qed.

(** The program text read on the reals. *)
Lemma CalcularAnguloDesviacion_ideal bx by' bz ax ay az :
  CalcularAnguloDesviacion (A := ideal) acos bx by' bz ax ay az
  = let c := (ax * bx + ay * by' + az * bz) / (norma bx by' bz * norma ax ay az) in
    let c := if Rlt_dec 1 c then 1 else c in
    let c := if Rlt_dec c (-1) then -1 else c in
    acos c * grados_por_radian.
Proof.
  unfold CalcularAnguloDesviacion, f_lit, norma, grados_por_radian.
  cbn [ideal f_add f_mul f_div f_sqrt f_gt f_lt f_of_Z].
  change (10 ^ Z.of_nat 5)%Z with 100000%Z. cbv zeta.
  destruct (Rlt_dec 1 _); [destruct (Rlt_dec 1 (-1))|destruct (Rlt_dec _ (-1))];
    reflexivity.
Qed.

Lemma norma_unit : norma 1 0 0 = 1 /\ norma (-1) 0 0 = 1.
Proof.
  unfold norma. split.
  - replace (1 * 1 + 0 * 0 + 0 * 0) with 1 by lra. apply sqrt_1.
  - replace (-1 * -1 + 0 * 0 + 0 * 0) with 1 by lra. apply sqrt_1.
Qed.

Lemma angulo_antiparalelo :
  CalcularAnguloDesviacion (A := ideal) acos 1 0 0 (-1) 0 0
  = PI * grados_por_radian.
Proof.
  rewrite CalcularAnguloDesviacion_ideal. cbv zeta.
  destruct norma_unit as [-> ->].
  replace ((-1 * 1 + 0 * 0 + 0 * 0) / (1 * 1)) with (-1) by lra.
  destruct (Rlt_dec 1 (-1)); [lra|].
  destruct (Rlt_dec (-1) (-1)); [lra|].
  now rewrite acos_minus_1.
Qed.

(** C2 as stated fails: for the reference (1, 0, 0) and the opposite reading
    (-1, 0, 0), both of magnitude 1, the result is above 180: in exact
    arithmetic it is pi * (180 / 3.14159), 3.14159 being below pi, and on
    binary32, for every [acosf] that returns the float nearest to pi at -1,
    it is 0x4334000A, about 180.00015. *)
Lemma antiparallel_exceeds_180 :
  norma 1 0 0 <> 0 /\ norma (-1) 0 0 <> 0 /\
  ~ (0 <= CalcularAnguloDesviacion (A := ideal) acos 1 0 0 (-1) 0 0 <= 180) /\
  (forall acosf : Binary32.float32 -> Binary32.float32,
      acosf (Ejemplo.f32 (-1) 0) = Ejemplo.pi_f ->
      let a := CalcularAnguloDesviacion (A := binary32) acosf
                 (Ejemplo.f32 1 0) (Ejemplo.f32 0 0) (Ejemplo.f32 0 0)
                 (Ejemplo.f32 (-1) 0) (Ejemplo.f32 0 0) (Ejemplo.f32 0 0) in
      Binary32.bits a = 0x4334000A%Z /\
      Binary32.gtb a (Ejemplo.f32 180 0) = true).
Proof.
  destruct norma_unit as [E1 E2]. rewrite E1, E2.
  split; [lra|]. split; [lra|]. split.
  - rewrite angulo_antiparalelo. unfold grados_por_radian.
    pose proof PI_above_literal. lra.
  - exact angulo_antiparalelo_binary32.
Qed.

End Angle.

(** ** The range of the angle on binary32 *)

Section AngleBinary32.

#[local] Existing Instance binary32.

Lemma digits2_pos_bounds p :
  2 ^ (Z.pos (digits2_pos p) - 1) <= Z.pos p < 2 ^ Z.pos (digits2_pos p).
Proof.
  induction p as [p IH|p IH|]; cbn [digits2_pos].
  - rewrite Pos2Z.inj_succ.
    replace (Z.succ (Z.pos (digits2_pos p)) - 1) with (Z.succ (Z.pos (digits2_pos p) - 1)) by lia.
    rewrite !Z.pow_succ_r by lia. lia.
  - rewrite Pos2Z.inj_succ.
    replace (Z.succ (Z.pos (digits2_pos p)) - 1) with (Z.succ (Z.pos (digits2_pos p) - 1)) by lia.
    rewrite !Z.pow_succ_r by lia. lia.
  - cbn. lia.
Qed.

Lemma shr_1_m mrs : 0 <= shr_m mrs -> shr_m (shr_1 mrs) = shr_m mrs / 2.
Proof.
  destruct mrs as [m r s]. cbn [shr_m shr_1]. intros Hm.
  destruct m as [|p|p]; [reflexivity| |lia].
  destruct p as [p|p|]; cbn [shr_m].
  - apply (Z.div_unique (Z.pos p~1) 2 (Z.pos p) 1); lia.
  - apply (Z.div_unique (Z.pos p~0) 2 (Z.pos p) 0); lia.
  - reflexivity.
Qed.

Lemma iter_shr_m p :
  forall mrs, 0 <= shr_m mrs ->
    shr_m (SpecFloat.iter_pos shr_1 p mrs) = shr_m mrs / 2 ^ Z.pos p.
Proof.
  induction p as [p IH|p IH|]; intros mrs Hm; cbn [SpecFloat.iter_pos].
  - assert (H1 : 0 <= shr_m (shr_1 mrs))
      by (rewrite shr_1_m by exact Hm; apply Z.div_pos; lia).
    assert (H2 : 0 <= shr_m (SpecFloat.iter_pos shr_1 p (shr_1 mrs)))
      by (rewrite IH by exact H1; apply Z.div_pos; lia).
    rewrite IH by exact H2. rewrite IH by exact H1. rewrite shr_1_m by exact Hm.
    rewrite !Z.div_div by lia. f_equal.
    rewrite Pos2Z.inj_xI. rewrite Z.pow_add_r, Z.pow_mul_r by lia.
    change (2 ^ 2) with 4. change (2 ^ 1) with 2.
    replace (4 ^ Z.pos p) with (2 ^ Z.pos p * 2 ^ Z.pos p)
      by (rewrite <- Z.pow_add_r by lia; change 4 with (2 ^ 2); rewrite <- Z.pow_mul_r by lia; f_equal; lia).
    lia.
  - assert (H1 : 0 <= shr_m (SpecFloat.iter_pos shr_1 p mrs))
      by (rewrite IH by exact Hm; apply Z.div_pos; lia).
    rewrite IH by exact H1. rewrite IH by exact Hm.
    rewrite Z.div_div by lia. f_equal.
    rewrite Pos2Z.inj_xO. rewrite <- Z.pow_add_r by lia. f_equal. lia.
  - rewrite shr_1_m by exact Hm. reflexivity.
Qed.

Lemma shr_shape m r s e n :
  0 <= m ->
  shr_m (fst (shr (Build_shr_record m r s) e n))
    = (if 0 <? n then m / 2 ^ n else m) /\
  snd (shr (Build_shr_record m r s) e n) = (if 0 <? n then e + n else e).
Proof.
  intros Hm. unfold shr. destruct n as [|p|p]; cbn [fst snd]; try (split; reflexivity).
  split; [|reflexivity]. now rewrite iter_shr_m.
Qed.

Lemma round_nearest_even_range m l : m <= round_nearest_even m l <= m + 1.
Proof.
  unfold round_nearest_even. destruct l as [|[| |]]; try lia.
  destruct (Z.even m); lia.
Qed.

Lemma round_aux_shape M E :
  0 < M ->
  let n1 := fexp 24 128 (Zdigits2 M + E) - E in
  let m1 := if 0 <? n1 then M / 2 ^ n1 else M in
  let e1 := if 0 <? n1 then E + n1 else E in
  exists m2, m1 <= m2 <= m1 + 1 /\
    binary_round_aux 24 128 false M E loc_Exact = forma m2 e1.
Proof.
  intros HM. cbv zeta. unfold binary_round_aux, shr_fexp.
  cbn [shr_record_of_loc].
  destruct (shr_shape M false false E (fexp 24 128 (Zdigits2 M + E) - E) ltac:(lia))
    as [Hm1 He1].
  destruct (shr {| shr_m := M; shr_r := false; shr_s := false |} E
              (fexp 24 128 (Zdigits2 M + E) - E)) as [mrs' e'].
  cbn [fst snd] in Hm1, He1. subst e'.
  set (m2 := round_nearest_even (shr_m mrs') (loc_of_shr_record mrs')).
  exists m2. split.
  - rewrite <- Hm1. apply round_nearest_even_range.
  - assert (H0 : 0 <= m2).
    { pose proof (round_nearest_even_range (shr_m mrs') (loc_of_shr_record mrs')).
      fold m2 in H. rewrite Hm1 in H.
      destruct (0 <? _); [|lia].
      assert (0 <= M / 2 ^ (fexp 24 128 (Zdigits2 M + E) - E))
        by (apply Z_div_nonneg_nonneg; [lia|apply Z.pow_nonneg; lia]).
      lia. }
    set (e1 := if 0 <? fexp 24 128 (Zdigits2 M + E) - E then _ else E).
    destruct (shr_shape m2 false false e1 (fexp 24 128 (Zdigits2 m2 + e1) - e1) H0)
      as [Hm3 He3].
    destruct (shr {| shr_m := m2; shr_r := false; shr_s := false |} e1
                (fexp 24 128 (Zdigits2 m2 + e1) - e1)) as [mrs'' e''].
    cbn [fst snd] in Hm3, He3. unfold forma. cbv zeta.
    rewrite <- Hm3, <- He3. reflexivity.
Qed.

Lemma pow2_lt_exp a b : 0 <= a -> 2 ^ a < 2 ^ b -> a < b.
Proof. intros Ha H. destruct (Z.lt_ge_cases a b) as [|Hge]; [assumption|].
  destruct (Z.le_gt_cases 0 b) as [Hb|Hb].
  - pose proof (Z.pow_le_mono_r 2 b a ltac:(lia) Hge). lia.
  - rewrite (Z.pow_neg_r 2 b Hb) in H. pose proof (Z.pow_nonneg 2 a ltac:(lia)). lia.
Qed.

Lemma Zdigits2_le m k : 0 <= m < 2 ^ k -> 0 <= k -> Zdigits2 m <= k.
Proof.
  intros [H0 Hm] Hk. destruct m as [|p|p]; cbn [Zdigits2]; [lia| |lia].
  pose proof (digits2_pos_bounds p) as [Hlo _].
  assert (2 ^ (Z.pos (digits2_pos p) - 1) < 2 ^ k) by lia.
  apply pow2_lt_exp in H; lia.
Qed.

Lemma Zdigits2_ge m k : 2 ^ k <= m -> 0 <= k -> k + 1 <= Zdigits2 m.
Proof.
  intros Hm Hk. pose proof (Z.pow_pos_nonneg 2 k ltac:(lia) Hk).
  destruct m as [|p|p]; cbn [Zdigits2]; [lia| |lia].
  pose proof (digits2_pos_bounds p) as [_ Hhi].
  assert (2 ^ k < 2 ^ Z.pos (digits2_pos p)) by lia.
  apply pow2_lt_exp in H0; lia.
Qed.

Lemma forma_le_angulo_max m2 e1 :
  0 <= m2 <= 2 ^ 24 -> -149 <= e1 <= -16 ->
  (e1 = -16 -> m2 <= 11796490) ->
  SFleb (S754_zero false) (forma m2 e1) = true /\ SFleb (forma m2 e1) angulo_max = true.
Proof.
  intros Hm He H16. unfold forma. cbv zeta.
  change (2 ^ 24) with 16777216 in Hm.
  destruct (Z.eq_dec m2 16777216) as [->|Hne].
  - assert (e1 <= -17) by (destruct (Z.eq_dec e1 (-16)) as [E|E]; [specialize (H16 E)|]; lia).
    change (Zdigits2 16777216) with 25.
    unfold fexp, emin.
    replace (Z.max (25 + e1 - 24) (3 - 128 - 24) - e1) with 1 by lia.
    cbn [Z.ltb Z.compare]. change (16777216 / 2 ^ 1) with 8388608.
    destruct (Z.leb_spec (e1 + 1) 104); [|lia].
    split; [reflexivity|].
    unfold angulo_max, SFleb, SFcompare.
    destruct (Z.compare_spec (e1 + 1) (-16)) as [E|E|E]; [reflexivity|reflexivity|lia].
  - assert (Hd : Zdigits2 m2 <= 24)
      by (apply Zdigits2_le; [change (2 ^ 24) with 16777216|]; lia).
    unfold fexp, emin.
    destruct (Z.ltb_spec 0 (Z.max (Zdigits2 m2 + e1 - 24) (3 - 128 - 24) - e1)); [lia|].
    destruct m2 as [|p|p]; [split; reflexivity| |lia].
    destruct (Z.leb_spec e1 104); [|lia].
    split; [reflexivity|].
    unfold angulo_max, SFleb, SFcompare.
    destruct (Z.compare_spec e1 (-16)) as [E|E|E]; [|reflexivity|lia].
    specialize (H16 E).
    destruct (Pos.compare_cont Eq p 11796490) eqn:Hcmp; [reflexivity|reflexivity|].
    apply (Pos.compare_gt_iff p 11796490) in Hcmp. lia.
Qed.

Lemma bound_core (m : positive) (e : Z) :
  SpecFloat.bounded 24 128 m e = true ->
  (e < -22 \/ (e = -22 /\ Z.pos m <= 13176795)) ->
  let R := binary_round_aux 24 128 false (Z.pos (m * 15019757)) (e + -18) loc_Exact in
  SFleb (S754_zero false) R = true /\ SFleb R angulo_max = true.
Proof.
  intros Hb Hle. cbv zeta.
  unfold SpecFloat.bounded, canonical_mantissa, fexp, emin in Hb.
  apply andb_prop in Hb. destruct Hb as [Hc _]. apply Z.eqb_eq in Hc.
  pose proof (digits2_pos_bounds m) as [Hdlo Hdhi].
  set (d := Z.pos (digits2_pos m)) in *.
  assert (Hd1 : 1 <= d) by (unfold d; lia).
  assert (Hd24 : d <= 24) by lia.
  assert (He149 : -149 <= e) by lia.
  assert (Hnorm : d = 24 \/ e = -149) by lia.
  (* the product *)
  rewrite Pos2Z.inj_mul. set (M := Z.pos m * Z.pos 15019757).
  assert (HM0 : 0 < M) by (unfold M; lia).
  assert (Hp24 : 2 ^ d <= 2 ^ 24) by (apply Z.pow_le_mono_r; lia).
  change (2 ^ 24) with 16777216 in Hp24.
  assert (HMhi : M < 2 ^ (d + 24)).
  { rewrite Z.pow_add_r by lia. change (2 ^ 24) with 16777216. unfold M. nia. }
  assert (HMlo : 2 ^ (d + 22) <= M).
  { replace (d + 22) with ((d - 1) + 23) by lia.
    rewrite Z.pow_add_r by lia. change (2 ^ 23) with 8388608. unfold M. nia. }
  assert (HdM : d + 23 <= Zdigits2 M <= d + 24).
  { split; [replace (d + 23) with ((d + 22) + 1) by lia; apply Zdigits2_ge; lia
           |apply Zdigits2_le; lia]. }
  pose proof (round_aux_shape M (e + -18) HM0) as Hshape. cbv zeta in Hshape.
  destruct Hshape as (m2 & Hm2 & ->).
  unfold fexp, emin in Hm2 |- *.
  set (dM := Zdigits2 M) in *.
  set (n1 := Z.max (dM + (e + -18) - 24) (3 - 128 - 24) - (e + -18)) in *.
  assert (HdMpow : M < 2 ^ dM).
  { unfold dM, M. cbn [Z.mul Zdigits2]. apply digits2_pos_bounds. }
  apply forma_le_angulo_max.
  - (* mantissa below 2^24 *)
    destruct (Z.ltb_spec 0 n1) as [Hn|Hn].
    + assert (Hq : M / 2 ^ n1 < 2 ^ 24).
      { apply Z.div_lt_upper_bound; [apply Z.pow_pos_nonneg; lia|].
        rewrite <- Z.pow_add_r by lia.
        apply Z.lt_le_trans with (1 := HdMpow).
        apply Z.pow_le_mono_r; lia. }
      assert (0 <= M / 2 ^ n1)
        by (apply Z_div_nonneg_nonneg; [lia|apply Z.pow_nonneg; lia]).
      lia.
    + assert (dM <= 24) by lia.
      assert (M < 2 ^ 24)
        by (apply Z.lt_le_trans with (1 := HdMpow); apply Z.pow_le_mono_r; lia).
      lia.
  - destruct (Z.ltb_spec 0 n1); lia.
  - intros He1.
    destruct (Z.ltb_spec 0 n1) as [Hn|Hn]; [|lia].
    assert (e = -22) by lia. subst e.
    destruct Hle as [?|[_ Hm]]; [lia|].
    assert (n1 = 24) by lia.
    assert (M / 2 ^ n1 <= 11796489).
    { rewrite H. change (2 ^ 24) with 16777216.
      apply Z.lt_succ_r. apply Z.div_lt_upper_bound; [lia|]. unfold M. lia. }
    lia.
Qed.

(** The conversion factor of the program on binary32. *)
Lemma factor_binary32 :
  Binary32.div (f_lit 180 0) (f_lit 314159 5) = S754_finite false 15019757 (-18).
Proof. reflexivity. Qed.

(** Multiplying by the factor keeps a float between 0 and the float nearest
    to pi between 0 and [angulo_max]. *)
Lemma mul_factor_range (t : Binary32.float32) :
  valid_binary 24 128 t = true ->
  SFleb (S754_zero false) t = true ->
  SFleb t Ejemplo.pi_f = true ->
  SFleb (S754_zero false)
    (Binary32.mul t (Binary32.div (f_lit 180 0) (f_lit 314159 5))) = true /\
  SFleb (Binary32.mul t (Binary32.div (f_lit 180 0) (f_lit 314159 5)))
    angulo_max = true.
Proof.
  rewrite factor_binary32. intros Hv H0 Hpi.
  destruct t as [s|s| |s m e].
  - destruct s; split; reflexivity.
  - destruct s; discriminate.
  - discriminate.
  - destruct s; [discriminate|].
    unfold Binary32.mul, SFmul. cbn [xorb].
    apply (bound_core m e Hv).
    unfold Ejemplo.pi_f, SFleb, SFcompare in Hpi.
    destruct (Z.compare_spec e (-22)) as [He|He|He]; [|left; exact He|discriminate].
    right. split; [exact He|].
    destruct (Pos.compare_cont Eq m 13176795) eqn:Hc; [| |discriminate].
    + apply (Pos.compare_eq m 13176795) in Hc. rewrite Hc. discriminate.
    + apply (Pos.compare_lt_iff m 13176795) in Hc.
      apply Pos2Z.pos_lt_pos in Hc. apply Z.lt_le_incl. exact Hc.
Qed.

Lemma SFcompare_none (x y : Binary32.float32) :
  SFcompare x y = None -> es_nan x = true \/ es_nan y = true.
Proof.
  destruct x as [?|?| |? ? ?], y as [?|?| |? ? ?]; cbn; intros H;
    try discriminate H; auto.
Qed.

Lemma SFcompare_antisym (x y : Binary32.float32) :
  SFcompare y x = option_map CompOpp (SFcompare x y).
Proof.
  destruct x as [sx|sx| |sx mx ex], y as [sy|sy| |sy my ey]; cbn [SFcompare option_map];
    try reflexivity;
    try (destruct sx; reflexivity); try (destruct sy; reflexivity);
    try (destruct sx, sy; reflexivity).
  destruct sx, sy; try reflexivity; cbn [CompOpp]; f_equal;
    rewrite (Z.compare_antisym ex ey);
    destruct (Z.compare ex ey); cbn [CompOpp]; try reflexivity.
  - f_equal. symmetry. exact (Pos.compare_cont_antisym mx my Eq).
  - symmetry. exact (Pos.compare_cont_antisym mx my Eq).
Qed.

(** Not less than, for numbers, is greater or equal. *)
Lemma not_ltb_leb (x y : Binary32.float32) :
  es_nan x = false -> es_nan y = false ->
  SFltb x y = false -> SFleb y x = true.
Proof.
  intros Hx Hy. unfold SFltb, SFleb. rewrite (SFcompare_antisym x y).
  destruct (SFcompare x y) as [[| |]|] eqn:E; cbn; try reflexivity; try discriminate.
  intros _. destruct (SFcompare_none x y E); congruence.
Qed.

(** After the clamps a cosine that is a number lies between -1 and 1. *)
Lemma recortar_en_rango (c : Binary32.float32) :
  es_nan c = false ->
  SFleb (Binary32.of_Z (-1)) (recortar c) = true /\
  SFleb (recortar c) (Binary32.of_Z 1) = true.
Proof.
  intros Hc. unfold recortar. cbn [f_gt f_lt binary32 f_lit f_of_Z].
  unfold Binary32.gtb, Binary32.ltb.
  destruct (SFltb (Binary32.of_Z 1) c) eqn:E1.
  - split; reflexivity.
  - pose proof (not_ltb_leb (Binary32.of_Z 1) c eq_refl Hc E1) as H1.
    destruct (SFltb c (Binary32.of_Z (-1))) eqn:E2.
    + split; reflexivity.
    + split; [|exact H1].
      exact (not_ltb_leb c (Binary32.of_Z (-1)) Hc eq_refl E2).
Qed.

Lemma CalcularAnguloDesviacion_factores acosf bx by' bz ax ay az :
  CalcularAnguloDesviacion acosf bx by' bz ax ay az
  = Binary32.mul (acosf (recortar (cos_theta bx by' bz ax ay az)))
      (Binary32.div (f_lit 180 0) (f_lit 314159 5)).
Proof. reflexivity. Qed.

(** The cosine can be NaN for vectors that are not zero: the squares of
    2^-80 underflow to 0, so both magnitudes are computed as 0 and the
    quotient is 0/0. *)
Lemma cos_theta_nan_underflow :
  let x := S754_finite false 8388608 (-103) in
  valid_binary 24 128 x = true /\
  es_nan (cos_theta x (Ejemplo.f32 0 0) (Ejemplo.f32 0 0)
            x (Ejemplo.f32 0 0) (Ejemplo.f32 0 0)) = true.
Proof. split; reflexivity. Qed.

(** C2, amended.  On binary32, for every reference vector and every reading
    for which the cosine computed by the code is a number (not NaN), and for
    an [acosf] that returns floats between 0 and the float nearest to pi on
    arguments between -1 and 1, the angle returned lies between 0 and
    [angulo_max] = 0x4334000A = 180.000152587890625. *)
Theorem angle_range_binary32 acosf bx by' bz ax ay az :
  acosf_en_rango acosf ->
  es_nan (cos_theta bx by' bz ax ay az) = false ->
  let a := CalcularAnguloDesviacion acosf bx by' bz ax ay az in
  SFleb (S754_zero false) a = true /\ SFleb a angulo_max = true.
Proof.
  intros Hacos Hc. cbv zeta. rewrite CalcularAnguloDesviacion_factores.
  destruct (recortar_en_rango _ Hc) as [Hlo Hhi].
  destruct (Hacos _ Hlo Hhi) as (Hv & H0 & Hpi).
  now apply mul_factor_range.
Qed.

Lemma acosf_escalon_en_rango : acosf_en_rango acosf_escalon.
Proof.
  intros c _ _. unfold acosf_escalon.
  destruct (SFleb c (Binary32.of_Z (-1))); [repeat split; reflexivity|].
  destruct (SFleb (Binary32.of_Z 1) c); repeat split; reflexivity.
Qed.

Lemma angle_range_binary32_witness :
  let a := CalcularAnguloDesviacion acosf_escalon
             (Ejemplo.f32 0 0) (Ejemplo.f32 0 0) (Ejemplo.f32 1 0)
             (Ejemplo.f32 3 0) (Ejemplo.f32 0 0) (Ejemplo.f32 4 0) in
  SFleb (S754_zero false) a = true /\ SFleb a angulo_max = true.
Proof.
  apply angle_range_binary32; [exact acosf_escalon_en_rango|reflexivity].
Defined.


End AngleBinary32.

(** ** The sampler on a concrete run *)

Section SamplerRun.

#[local] Existing Instance ideal.

Lemma reference_is_mean_witness :
let ins := Ejemplo.lecturas_pre ++ [Ejemplo.lectura_ult] in
let g := snd (muestrear (A := ideal) 100 acos ins (locals0 50, globals0)) in
calibrado (snd (muestrear (A := ideal) 100 acos Ejemplo.lecturas_pre
                  (locals0 50, globals0))) = false /\
calibrado g = true /\
base_x g = f_div (f_sum (suavizadas raw_x ins)) (f_of_Z 3) /\
base_y g = f_div (f_sum (suavizadas raw_y ins)) (f_of_Z 3) /\
base_z g = f_div (f_sum (suavizadas raw_z ins)) (f_of_Z 3).
Proof.
apply (reference_is_mean (A := ideal) 100 acos Ejemplo.lecturas_pre
         Ejemplo.lectura_ult 50).
- cbn. lia.
- repeat constructor.
- cbv. discriminate.
Defined.

Lemma divisor_at_least_one_witness :
let s := muestrear (A := ideal) 100 acos Ejemplo.lecturas_pre (locals0 50, globals0) in
let s' := LeerAcelerometro (A := ideal) 100 acos Ejemplo.lectura_ult s in
1 <= muestras (fst s') /\
base_x (snd s') = f_div (suma_x (fst s')) (f_of_Z (muestras (fst s'))) /\
base_y (snd s') = f_div (suma_y (fst s')) (f_of_Z (muestras (fst s'))) /\
base_z (snd s') = f_div (suma_z (fst s')) (f_of_Z (muestras (fst s'))).
Proof.
apply (divisor_at_least_one (A := ideal) 100 acos Ejemplo.lecturas_pre
         Ejemplo.lectura_ult 50).
- reflexivity.
- cbn. lia.
- reflexivity.
- reflexivity.
Defined.

End SamplerRun.

(** ** The smoothing filter *)

Section Filter.

Local Open Scope R_scope.


(** Each axis is filtered from its own raw value and its own stored value,
    in every iteration and for every arithmetic. *)
Lemma LeerAcelerometro_filtra {F : Type} {A : FloatArith F} hz acosf
      (i : @lectura F) l (g : @globals F) :
  let d := datos_acelerometro g in
  let d' := datos_acelerometro (snd (LeerAcelerometro hz acosf i (l, g))) in
  ax d' = FiltroSuavizado (raw_x i) (ax d) /\
  ay d' = FiltroSuavizado (raw_y i) (ay d) /\
  az d' = FiltroSuavizado (raw_z i) (az d).
Proof.
  cbv zeta. unfold LeerAcelerometro. cbn [calibrado set_datos].
  destruct (calibrado g); cbn [negb].
  - repeat split; reflexivity.
  - destruct (_ <=? _)%Z; repeat split; reflexivity.
Qed.



End Filter.

(** ** The delay of the sampler *)

(** C4.  The sampler passes [1000 / PERIODO_MUESTREO_AC = 1] tick to
    [vTaskDelay], whereas the classifier passes
    [pdMS_TO_TICKS(PERIODO_MUESTREO_AC)], which is 100 ticks at 100 Hz and
    1000 ticks at 1000 Hz: the sampler does not wait 1000 ms. *)
Theorem sampler_delay_one_tick :
  LeerAcelerometro_delay = 1 /\
  ProcesarPostura_delay 100 = 100 /\
  ProcesarPostura_delay 1000 = 1000 /\
  LeerAcelerometro_delay <> pdMS_TO_TICKS 100 PERIODO_MUESTREO_AC /\
  LeerAcelerometro_delay <> pdMS_TO_TICKS 1000 PERIODO_MUESTREO_AC.
Proof. repeat split; try reflexivity; discriminate. Qed.

(** ** The telemetry text *)

(** C8.  For the reading 1.23, -0.50, 9.81, 15.00 and state 2 the text sent
    is the five lines below, each ended by a line feed (the string literal
    holds the line feeds themselves): 53 characters, those at positions 7,
    16, 24, 32 and 52 being character 10; the labels of states 0, 1, 2 and
    of any other value are as in the source. *)
Theorem telemetry_alert_text :
  (forall t bx by' bz c,
      Bluetooth (Ejemplo.telemetria 2 t bx by' bz c)
      = "*X1.23g
*Y-0.50g
*Z9.81g
*A15.00
*EIncorrecta-Alerta
"%string) /\
  (forall t bx by' bz c,
      String.length (Bluetooth (Ejemplo.telemetria 2 t bx by' bz c)) = 53%nat /\
      map (fun k => String.get k (Bluetooth (Ejemplo.telemetria 2 t bx by' bz c)))
        [7; 16; 24; 32; 52]%nat
      = repeat (Some (ascii_of_nat 10)) 5) /\
  estado_texto 0 = "Correcta"%string /\
  estado_texto 1 = "Incorrecta-Advertencia"%string /\
  estado_texto 2 = "Incorrecta-Alerta"%string /\
  (forall ps, estado_texto ps = "Desconocido"%string <-> ~ posture_ok ps).
Proof.
  split; [intros; reflexivity|].
  split; [intros; split; reflexivity|].
  repeat split; try reflexivity.
  - intros H [-> | [-> | ->]]; discriminate H.
  - intros H. unfold estado_texto, switch_posture_state, posture_ok in *.
    destruct (Z.eqb_spec ps 0); [lia|].
    destruct (Z.eqb_spec ps 1); [lia|].
    destruct (Z.eqb_spec ps 2); [lia|reflexivity].
Qed.

(** * Further properties *)

(** ** The classifier as a function of the streak of bad evaluations *)

Section Streak.

Context {F : Type} {A : FloatArith F}.

Implicit Types (g : @globals F) (a : F) (angles : list F).

Lemma racha_snoc angles a :
  racha (angles ++ [a]) = if sobre_umbral a then racha angles + 1 else 0.
Proof. unfold racha. now rewrite fold_left_app. Qed.

Lemma racha_nonneg angles : 0 <= racha angles.
Proof.
  induction angles as [|a angles IH] using rev_ind; [reflexivity|].
  rewrite racha_snoc. destruct (sobre_umbral a); lia.
Qed.

Lemma calibradas_snoc angles a :
  calibradas (angles ++ [a]) = calibradas angles ++ [(true, a)].
Proof. unfold calibradas. now rewrite map_app. Qed.

Lemma streak_invariant angles :
  forall g,
    estado g = (0, 0) ->
    let g' := ticks (calibradas angles) g in
    let k := racha angles in
    bad_posture_time g' = uint32 (k * PERIODO_MUESTREO_AC) /\
    (posture_state g' = 2 -> 5 <= k) /\
    (posture_state g' = 1 -> 3 <= k) /\
    (posture_state g' = 0 \/ posture_state g' = 1 \/ posture_state g' = 2) /\
    (k <= 4294967 -> posture_state g' = estado_de_racha k).
Proof.
  induction angles as [|a angles IH] using rev_ind; intros g Hg; cbv zeta.
  - injection Hg as Hp Ht. cbn [calibradas map ticks fold_left].
    rewrite Hp, Ht. change (racha []) with 0.
    repeat split; try lia; reflexivity.
  - destruct (IH g Hg) as (Ht & H2 & H1 & Hps & Hk). clear IH.
    rewrite calibradas_snoc, ticks_snoc, racha_snoc.
    pose proof (racha_nonneg angles) as Hk0.
    set (g' := ticks (calibradas angles) g) in *.
    set (k := racha angles) in *.
    assert (E : estado (tick g' (true, a)) =
                (posture_state (tick g' (true, a)), bad_posture_time (tick g' (true, a))))
      by reflexivity.
    destruct (sobre_umbral a) eqn:Ha.
    + rewrite (estado_tick_over _ _ Ha) in E. cbv zeta in E.
      injection E as Ep Et. rewrite <- Ep, <- Et. clear Ep Et.
      assert (Ht' : uint32 (bad_posture_time g' + PERIODO_MUESTREO_AC)
                    = uint32 ((k + 1) * PERIODO_MUESTREO_AC)).
      { rewrite Ht. unfold uint32, PERIODO_MUESTREO_AC.
        rewrite Zplus_mod_idemp_l. f_equal. lia. }
      rewrite Ht'. clear Ht'.
      assert (Hsmall : k + 1 <= 4 ->
                uint32 ((k + 1) * PERIODO_MUESTREO_AC) = (k + 1) * 1000)
        by (intros ?; unfold uint32, PERIODO_MUESTREO_AC; rewrite Z.mod_small; lia).
      assert (Hexact : k + 1 <= 4294967 ->
                uint32 ((k + 1) * PERIODO_MUESTREO_AC) = (k + 1) * 1000)
        by (intros ?; unfold uint32, PERIODO_MUESTREO_AC; rewrite Z.mod_small; lia).
      unfold estado_de_racha, TIEMPO_ALERTA, TIEMPO_ADVERTENCIA, PERIODO_MUESTREO_AC in *.
      destruct (Z.leb_spec 5000 (uint32 ((k + 1) * 1000))) as [E5|E5];
        [|destruct (Z.leb_spec 3000 (uint32 ((k + 1) * 1000))) as [E3|E3]].
      * split; [reflexivity|].
        split; [intros _; destruct (Z.le_gt_cases (k + 1) 4) as [Hs|Hs];
                [rewrite (Hsmall Hs) in E5; lia|lia]|].
        split; [discriminate|].
        split; [auto|]. intros Hle. rewrite (Hexact Hle) in E5.
        destruct (Z.ltb_spec ((k + 1) * 1000) 3000); [lia|].
        destruct (Z.ltb_spec ((k + 1) * 1000) 5000); [lia|reflexivity].
      * split; [reflexivity|]. split; [discriminate|].
        split; [intros _; destruct (Z.le_gt_cases (k + 1) 2) as [Hs|Hs];
                [rewrite (Hsmall ltac:(lia)) in E3; lia|lia]|].
        split; [auto|]. intros Hle. rewrite (Hexact Hle) in E5, E3.
        destruct (Z.ltb_spec ((k + 1) * 1000) 3000); [lia|].
        destruct (Z.ltb_spec ((k + 1) * 1000) 5000); [reflexivity|lia].
      * split; [reflexivity|]. split; [intros H; specialize (H2 H); lia|].
        split; [intros H; specialize (H1 H); lia|].
        split; [exact Hps|]. intros Hle. rewrite (Hexact Hle) in E5, E3.
        rewrite (Hk ltac:(lia)).
        destruct (Z.ltb_spec (k * 1000) 3000); [|lia].
        destruct (Z.ltb_spec ((k + 1) * 1000) 3000); [reflexivity|lia].
    + rewrite (estado_tick_reset _ _ Ha) in E.
      injection E as Ep Et. rewrite <- Ep, <- Et.
      repeat split; try lia; try discriminate; auto.
Qed.

(** X1.  Once calibrated and started from (Correct, 0), after any number of
    evaluations the duration is 1000 ms times the length of the streak of
    over-threshold evaluations that ends the run, reduced modulo 2^32. *)
Theorem duration_is_streak angles g :
  estado g = (0, 0) ->
  bad_posture_time (ticks (calibradas angles) g)
  = uint32 (racha angles * PERIODO_MUESTREO_AC).
Proof. intros Hg. apply (streak_invariant angles g Hg). Qed.

(** X2.  Hysteresis: from (Correct, 0), whatever the length of the run, the
    state is Alert only if at least the last 5 evaluations were over the
    threshold, and Warning only if at least the last 3 were. *)
Theorem escalation_needs_streak angles g :
  estado g = (0, 0) ->
  (posture_state (ticks (calibradas angles) g) = 2 -> 5 <= racha angles) /\
  (posture_state (ticks (calibradas angles) g) = 1 -> 3 <= racha angles).
Proof.
  intros Hg. destruct (streak_invariant angles g Hg) as (_ & H2 & H1 & _).
  split; assumption.
Qed.

(** X3.  From (Correct, 0), as long as the final streak is at most 4294967
    evaluations, the state and the duration depend on that streak only:
    Correct under 3, Warning for 3 and 4, Alert from 5 on, and 1000 ms per
    evaluation. *)
Theorem state_is_streak angles g :
  estado g = (0, 0) ->
  racha angles <= 4294967 ->
  estado (ticks (calibradas angles) g)
  = (estado_de_racha (racha angles), racha angles * PERIODO_MUESTREO_AC).
Proof.
  intros Hg Hk.
  destruct (streak_invariant angles g Hg) as (Ht & _ & _ & _ & Hps).
  unfold estado. rewrite (Hps Hk), Ht. f_equal.
  pose proof (racha_nonneg angles).
  unfold uint32, PERIODO_MUESTREO_AC. apply Z.mod_small. lia.
Qed.

(** The thresholds read both ways whenever the final streak is at most
    4294967 evaluations, however long the run before it. *)
Lemma coherent_while_streak_fits angles g :
  estado g = (0, 0) ->
  racha angles <= 4294967 ->
  coherent (estado (ticks (calibradas angles) g)).
Proof.
  intros Hg Hk.
  destruct (streak_invariant angles g Hg) as (Ht & _ & _ & _ & Hps).
  pose proof (racha_nonneg angles) as H0.
  unfold estado. rewrite (Hps Hk), Ht.
  unfold uint32, PERIODO_MUESTREO_AC. rewrite Z.mod_small by lia.
  unfold coherent, estado_de_racha, TIEMPO_ADVERTENCIA, TIEMPO_ALERTA,
    PERIODO_MUESTREO_AC.
  destruct (Z.ltb_spec (racha angles * 1000) 3000);
    [|destruct (Z.ltb_spec (racha angles * 1000) 5000)]; lia.
Qed.

End Streak.

Section StreakBinary32.

Import Ejemplo.

#[local] Existing Instance binary32.

Lemma duration_is_streak_witness :
  bad_posture_time
    (ticks (calibradas [f32 15 0; f32 3 0; f32 20 0; f32 (-13) 0]) inicio)
  = uint32 (racha [f32 15 0; f32 3 0; f32 20 0; f32 (-13) 0] * PERIODO_MUESTREO_AC).
Proof. apply duration_is_streak. reflexivity. Defined.

Lemma escalation_needs_streak_witness :
  let angles := [f32 15 0; f32 3 0; f32 20 0; f32 (-13) 0; f32 14 0] in
  (posture_state (ticks (calibradas angles) inicio) = 2 -> 5 <= racha angles) /\
  (posture_state (ticks (calibradas angles) inicio) = 1 -> 3 <= racha angles).
Proof. apply escalation_needs_streak. reflexivity. Defined.

Lemma state_is_streak_witness :
  let angles := [f32 15 0; f32 3 0; f32 20 0; f32 (-13) 0; f32 14 0] in
  estado (ticks (calibradas angles) inicio)
  = (estado_de_racha (racha angles), racha angles * PERIODO_MUESTREO_AC).
Proof. apply state_is_streak; [reflexivity|vm_compute; discriminate]. Defined.

End StreakBinary32.

(** ** The shared state under any interleaving of the tasks *)

Section Interleaving.

Context {F : Type} {A : FloatArith F}.
Variable hz : Z.
Variable acosf : F -> F.

Implicit Types (g : @globals F) (s : @system F) (e : @event F)
  (es : list (@event F)).

Lemma run_snoc es e s :
  run hz acosf (es ++ [e]) s = step hz acosf (run hz acosf es s) e.
Proof. unfold run. now rewrite fold_left_app. Qed.

Lemma ProcesarPostura_calibrado g :
  calibrado (ProcesarPostura g) = calibrado g.
Proof.
  unfold ProcesarPostura. destruct (calibrado g) eqn:Hc; [|exact Hc].
  destruct (sobre_umbral _); [|exact Hc]. cbv zeta.
  destruct (TIEMPO_ALERTA <=? _); [exact Hc|].
  destruct (TIEMPO_ADVERTENCIA <=? _); exact Hc.
Qed.

Lemma ProcesarPostura_consistent g :
  posture_ok (posture_state g) ->
  consistent (estado g) -> consistent (estado (ProcesarPostura g)).
Proof.
  intros Hok Hg. unfold ProcesarPostura.
  destruct (calibrado g); [|exact Hg].
  unfold consistent, estado, posture_ok in *.
  unfold TIEMPO_ADVERTENCIA, TIEMPO_ALERTA, PERIODO_MUESTREO_AC, uint32 in *.
  destruct (sobre_umbral _);
    [|cbn [set_posture posture_state bad_posture_time]; lia].
  cbv zeta.
  pose proof (Z.mod_pos_bound (bad_posture_time g + 1000) (2 ^ 32) ltac:(lia)) as Hm.
  assert (Hs : bad_posture_time g + 1000 < 2 ^ 32 ->
               (bad_posture_time g + 1000) mod 2 ^ 32 = bad_posture_time g + 1000)
    by (intros ?; apply Z.mod_small; lia).
  set (t' := (bad_posture_time g + 1000) mod 2 ^ 32) in *.
  destruct (Z.leb_spec 5000 t');
    [cbn [set_posture posture_state bad_posture_time]; lia|].
  destruct (Z.leb_spec 3000 t');
    [cbn [set_posture posture_state bad_posture_time]; lia|].
  cbn [set_posture posture_state bad_posture_time].
  destruct (Z.lt_ge_cases (bad_posture_time g + 1000) (2 ^ 32)) as [Hlt|Hge].
  - specialize (Hs Hlt). lia.
  - lia.
Qed.

Lemma LeerAcelerometro_estado i l g :
  estado (snd (LeerAcelerometro hz acosf i (l, g))) = estado g.
Proof.
  unfold LeerAcelerometro. cbn [calibrado set_datos].
  destruct (calibrado g); cbn [negb]; [reflexivity|].
  destruct (_ <=? _); reflexivity.
Qed.

Lemma step_estado_cases s e :
  estado (shared (step hz acosf s e)) = estado (shared s) \/
  (e = Evaluacion /\
   shared (step hz acosf s e) = ProcesarPostura (shared s)).
Proof.
  destruct e as [i| |]; cbn [step].
  - left. pose proof (LeerAcelerometro_estado i (locals s) (shared s)) as E.
    destruct (LeerAcelerometro hz acosf i (locals s, shared s)) as [l g].
    exact E.
  - right. split; reflexivity.
  - left. reflexivity.
Qed.

(** X4.  In every execution, of any length, the shared pair keeps what of
    the thresholds survives a wrap of the 32-bit duration: Correct implies
    under 3000 ms, Warning holds exactly between 3000 and 5000 ms, and 5000
    ms or more implies Alert. *)
Theorem consistent_always es t0 leds :
  consistent (estado (shared (run hz acosf es (system0 t0 leds)))).
Proof.
  induction es as [|e es IH] using rev_ind.
  - cbn. unfold TIEMPO_ADVERTENCIA, TIEMPO_ALERTA. lia.
  - rewrite run_snoc.
    pose proof (run_posture_ok hz acosf es (system0 t0 leds)
                  ltac:(left; reflexivity)) as Hok.
    set (s := run hz acosf es (system0 t0 leds)) in *.
    destruct (step_estado_cases s e) as [E|[_ E]]; rewrite E.
    + exact IH.
    + now apply ProcesarPostura_consistent.
Qed.

Lemma step_idle s e :
  (calibrado (shared s) = false ->
   estado (shared s) = (0, 0) /\
   angulo (datos_acelerometro (shared s)) = f_of_Z 0) ->
  calibrado (shared (step hz acosf s e)) = false ->
  estado (shared (step hz acosf s e)) = (0, 0) /\
  angulo (datos_acelerometro (shared (step hz acosf s e))) = f_of_Z 0.
Proof.
  intros Hs. destruct e as [i| |]; cbn [step].
  - destruct s as [l g o]. cbn [locals shared] in *.
    destruct (calibrado g) eqn:Hg.
    + destruct (iterar_calibrado hz acosf l g i Hg) as [Hc _].
      destruct (LeerAcelerometro hz acosf i (l, g)) as [l' g'].
      cbn [shared snd] in *. congruence.
    + specialize (Hs eq_refl).
      rewrite (iterar_sin_calibrar hz acosf l g i Hg). cbv zeta.
      destruct (_ <=? _); cbn [shared]; [discriminate|].
      intros _. exact Hs.
  - cbn [shared]. rewrite ProcesarPostura_calibrado. intros Hc.
    unfold ProcesarPostura. rewrite Hc. now apply Hs.
  - exact Hs.
Qed.

(** X5.  In every execution, as long as [calibrado] is clear the classifier
    has done nothing and no angle has been computed: the state is Correct,
    the duration 0 and the stored angle still its initial 0. *)
Theorem idle_until_calibrated es t0 leds :
  let g := shared (run hz acosf es (system0 t0 leds)) in
  calibrado g = false ->
  estado g = (0, 0) /\ angulo (datos_acelerometro g) = f_of_Z 0.
Proof.
  cbv zeta. induction es as [|e es IH] using rev_ind.
  - intros _. split; reflexivity.
  - rewrite run_snoc. apply step_idle. exact IH.
Qed.




Lemma step_calibrado_final s e :
  calibrado (shared s) = true ->
  calibrado (shared (step hz acosf s e)) = true /\
  base_x (shared (step hz acosf s e)) = base_x (shared s) /\
  base_y (shared (step hz acosf s e)) = base_y (shared s) /\
  base_z (shared (step hz acosf s e)) = base_z (shared s) /\
  locals (step hz acosf s e) = locals s.
Proof.
  intros Hc. destruct e as [i| |]; cbn [step].
  - destruct s as [l g o]. cbn [locals shared] in *.
    unfold LeerAcelerometro. cbn [calibrado set_datos]. rewrite Hc.
    cbn [negb shared locals set_angulo set_datos calibrado base_x base_y base_z].
    auto.
  - cbn [shared locals]. rewrite ProcesarPostura_calibrado.
    split; [exact Hc|]. unfold ProcesarPostura. rewrite Hc.
    destruct (sobre_umbral _); [|cbn; auto]. cbv zeta.
    destruct (TIEMPO_ALERTA <=? _); [cbn; auto|].
    destruct (TIEMPO_ADVERTENCIA <=? _); cbn; auto.
  - cbn [shared locals]. auto.
Qed.

(** X7.  Calibration is final: from any state in which [calibrado] is set,
    whatever the tasks do afterwards the flag stays set, the reference
    vector keeps its value and the sums and the count of the sampler are
    never written again. *)
Theorem calibration_is_final es s :
  calibrado (shared s) = true ->
  let s' := run hz acosf es s in
  calibrado (shared s') = true /\
  base_x (shared s') = base_x (shared s) /\
  base_y (shared s') = base_y (shared s) /\
  base_z (shared s') = base_z (shared s) /\
  locals s' = locals s.
Proof.
  intros Hc. cbv zeta.
  induction es as [|e es IH] using rev_ind; [auto|].
  rewrite run_snoc. destruct IH as (Hc' & Hx & Hy & Hz & Hl).
  destruct (step_calibrado_final (run hz acosf es s) e Hc')
    as (Hc'' & Hx' & Hy' & Hz' & Hl').
  repeat split; congruence.
Qed.

End Interleaving.

(** ** More on the sampler *)

Section Sampler2.

Context {F : Type} {A : FloatArith F}.
Variable hz : Z.
Variable acosf : F -> F.

Implicit Types (l : @sampler_locals F) (g : @globals F) (i : @lectura F)
  (pre ins : list (@lectura F)).

Local Abbreviation ventana := (pdMS_TO_TICKS hz TIEMPO_CALIBRACION).
Local Abbreviation correr := (muestrear hz acosf).
Local Abbreviation iterar := (LeerAcelerometro hz acosf).

Lemma correr_calibrado ins :
  forall l g, calibrado g = true -> calibrado (snd (correr ins (l, g))) = true.
Proof.
  induction ins as [|i ins IH] using rev_ind; intros l g Hg; [exact Hg|].
  rewrite muestrear_snoc. specialize (IH l g Hg).
  destruct (correr ins (l, g)) as [l' g']. cbn [snd] in IH.
  apply (iterar_calibrado hz acosf l' g' i IH).
Qed.

(** X8.  After any iterations of the sampler, [calibrado] is set exactly if
    one of them read the tick counter at least the calibration window after
    the start; neither the count nor the readings play a part. *)
Theorem calibrated_iff_window_seen ins t0 :
  calibrado (snd (correr ins (locals0 t0, globals0))) = ventana_vista hz t0 ins.
Proof.
  induction ins as [|i ins IH] using rev_ind; [reflexivity|].
  unfold ventana_vista in *. rewrite existsb_app. cbn [existsb].
  rewrite muestrear_snoc, <- IH, orb_false_r.
  pose proof (correr_start_time hz acosf ins (locals0 t0, globals0)) as Hs.
  destruct (correr ins (locals0 t0, globals0)) as [l g].
  cbn [fst snd locals0 start_time] in *.
  destruct (calibrado g) eqn:Hg.
  - destruct (iterar_calibrado hz acosf l g i Hg) as [Hc _]. exact Hc.
  - rewrite (iterar_sin_calibrar hz acosf l g i Hg). cbv zeta. rewrite Hs.
    destruct (ventana <=? uint32 (now i - t0)); [reflexivity|exact Hg].
Qed.

(** X9.  Calibration ends: if every iteration reads the tick counter at
    least one tick after the previous one (the delay of the loop), then
    after more iterations than the window has ticks [calibrado] is set. *)
Theorem calibration_completes ins t0 :
  ticks_advance LeerAcelerometro_delay 0
    (map (fun j => uint32 (now j - t0)) ins) ->
  Z.max 0 ventana < Z.of_nat (List.length ins) ->
  calibrado (snd (correr ins (locals0 t0, globals0))) = true.
Proof.
  intros Hadv Hlen.
  destruct (calibrado (snd (correr ins (locals0 t0, globals0)))) eqn:Hc;
    [reflexivity|].
  pose proof (sin_calibrar_ventana hz acosf t0 ins Hc) as Hpre.
  assert (Hle : Z.of_nat (List.length ins) <= Z.max 0 (ventana - 0)).
  { rewrite <- (length_map (fun j => uint32 (now j - t0))).
    apply (ticks_advance_length LeerAcelerometro_delay); [reflexivity|exact Hadv|].
    apply Forall_map. exact Hpre. }
  lia.
Qed.

Lemma uint16_succ k : uint16 (uint16 k + 1) = uint16 (k + 1).
Proof. unfold uint16. apply Zplus_mod_idemp_l. Qed.

Lemma acumulando_inicio t0 : acumulando t0 [] (locals0 t0, globals0).
Proof. constructor; reflexivity. Qed.

Lemma iterar_acumulando t0 ins i s :
  acumulando t0 ins s ->
  uint32 (now i - t0) < ventana ->
  acumulando t0 (ins ++ [i]) (iterar i s).
Proof.
  intros [Hc Hm Hs Hx Hy Hz Hax Hay Haz] Hel.
  destruct s as [l g]. cbn [fst snd] in *.
  rewrite (iterar_sin_calibrar hz acosf _ _ _ Hc). cbv zeta. rewrite Hs.
  destruct (Z.leb_spec ventana (uint32 (now i - t0))); [lia|].
  constructor; cbn [fst snd calibrado set_datos muestras start_time
                    suma_x suma_y suma_z datos_acelerometro ax ay az].
  - exact Hc.
  - rewrite Hm, uint16_succ, length_app, Nat2Z.inj_add. reflexivity.
  - reflexivity.
  - now rewrite suavizadas_snoc, f_sum_snoc, Hx, Hax.
  - now rewrite suavizadas_snoc, f_sum_snoc, Hy, Hay.
  - now rewrite suavizadas_snoc, f_sum_snoc, Hz, Haz.
  - now rewrite suavizadas_snoc, last_last, Hax.
  - now rewrite suavizadas_snoc, last_last, Hay.
  - now rewrite suavizadas_snoc, last_last, Haz.
Qed.

Lemma correr_acumulando t0 pre :
  Forall (fun i => uint32 (now i - t0) < ventana) pre ->
  acumulando t0 pre (correr pre (locals0 t0, globals0)).
Proof.
  induction pre as [|i pre IH] using rev_ind; intros Hpre.
  - apply acumulando_inicio.
  - apply Forall_app in Hpre. destruct Hpre as [Hpre Hi].
    inversion Hi as [|? ? Hi' _]; subst.
    rewrite muestrear_snoc. apply iterar_acumulando; [|exact Hi'].
    now apply IH.
Qed.

(** X10.  Whatever the number N of iterations at which the window elapses,
    the reference vector is, per axis, the sum of the N smoothed samples
    divided by N reduced modulo 65536 (the 16-bit count): for N a multiple
    of 65536 the divisor is 0. *)
Theorem reference_divisor_wraps pre ult t0 :
  let ins := pre ++ [ult] in
  let n := Z.of_nat (List.length ins) in
  Forall (fun i => uint32 (now i - t0) < ventana) pre ->
  ventana <= uint32 (now ult - t0) ->
  let s := correr ins (locals0 t0, globals0) in
  muestras (fst s) = uint16 n /\
  base_x (snd s) = f_div (f_sum (suavizadas raw_x ins)) (f_of_Z (uint16 n)) /\
  base_y (snd s) = f_div (f_sum (suavizadas raw_y ins)) (f_of_Z (uint16 n)) /\
  base_z (snd s) = f_div (f_sum (suavizadas raw_z ins)) (f_of_Z (uint16 n)).
Proof.
  cbv zeta. intros Hpre Hult.
  destruct (correr_acumulando t0 pre Hpre) as [Hc Hm Hs Hx Hy Hz Hax Hay Haz].
  rewrite muestrear_snoc.
  destruct (correr pre (locals0 t0, globals0)) as [l g]. cbn [fst snd] in *.
  rewrite (iterar_sin_calibrar hz acosf _ _ _ Hc). cbv zeta. rewrite Hs.
  destruct (Z.leb_spec ventana (uint32 (now ult - t0))); [|lia].
  cbn [fst snd set_base muestras suma_x suma_y suma_z base_x base_y base_z].
  assert (Hn : uint16 (muestras l + 1)
               = uint16 (Z.of_nat (List.length (pre ++ [ult])))).
  { rewrite Hm, uint16_succ, length_app, Nat2Z.inj_add. reflexivity. }
  rewrite Hn, !suavizadas_snoc, !f_sum_snoc, Hx, Hy, Hz, Hax, Hay, Haz.
  repeat split; reflexivity.
Qed.

End Sampler2.

(** ** More on the smoothing filter *)

Section FilterBinary32.

#[local] Existing Instance binary32.

Implicit Types (x nuevo previo : Binary32.float32).

Lemma FiltroSuavizado_nan_previo nuevo : FiltroSuavizado nuevo S754_nan = S754_nan.
Proof. reflexivity. Qed.

Lemma FiltroSuavizado_nan_nuevo previo : FiltroSuavizado S754_nan previo = S754_nan.
Proof.
  unfold FiltroSuavizado. cbn [f_add f_mul binary32].
  change (Binary32.mul (f_lit 2 1) S754_nan) with S754_nan.
  match goal with |- Binary32.add ?m _ = _ => destruct m end; reflexivity.
Qed.

Variable hz : Z.
Variable acosf : Binary32.float32 -> Binary32.float32.

Implicit Types (l : @sampler_locals Binary32.float32)
  (g : @globals Binary32.float32) (i : @lectura Binary32.float32)
  (ins : list (@lectura Binary32.float32)).

Lemma muestrear_cons i ins l g :
  muestrear hz acosf (i :: ins) (l, g)
  = muestrear hz acosf ins (LeerAcelerometro hz acosf i (l, g)).
Proof. reflexivity. Qed.

Lemma nan_stays ins :
  forall l g,
    let d := datos_acelerometro g in
    let d' := datos_acelerometro (snd (muestrear hz acosf ins (l, g))) in
    (ax d = S754_nan -> ax d' = S754_nan) /\
    (ay d = S754_nan -> ay d' = S754_nan) /\
    (az d = S754_nan -> az d' = S754_nan).
Proof.
  induction ins as [|i ins IH]; intros l g; cbv zeta; [cbn; auto|].
  rewrite muestrear_cons.
  destruct (LeerAcelerometro_filtra hz acosf i l g) as (Hx & Hy & Hz).
  destruct (LeerAcelerometro hz acosf i (l, g)) as [l' g'].
  cbn [snd] in *. destruct (IH l' g') as (Ix & Iy & Iz).
  repeat split; intros H; [apply Ix; rewrite Hx|apply Iy; rewrite Hy|apply Iz; rewrite Hz];
    rewrite H; apply FiltroSuavizado_nan_previo.
Qed.

(** X13.  On binary32 a NaN is never flushed out: if an iteration of the
    sampler reads NaN on an axis, the stored acceleration of that axis is NaN
    after that iteration and after every later one, whatever is read then. *)
Theorem nan_reading_is_sticky i ins l g :
  let d' := datos_acelerometro (snd (muestrear hz acosf (i :: ins) (l, g))) in
  (raw_x i = S754_nan -> ax d' = S754_nan) /\
  (raw_y i = S754_nan -> ay d' = S754_nan) /\
  (raw_z i = S754_nan -> az d' = S754_nan).
Proof.
  cbv zeta. rewrite muestrear_cons.
  destruct (LeerAcelerometro_filtra hz acosf i l g) as (Hx & Hy & Hz).
  destruct (LeerAcelerometro hz acosf i (l, g)) as [l' g'].
  cbn [snd] in *. destruct (nan_stays ins l' g') as (Ix & Iy & Iz).
  repeat split; intros H; [apply Ix; rewrite Hx|apply Iy; rewrite Hy|apply Iz; rewrite Hz];
    rewrite H; apply FiltroSuavizado_nan_nuevo.
Qed.

End FilterBinary32.

(** ** More on the deviation angle *)

Section AngleSymmetry.

Lemma CalcularAnguloDesviacion_sym {F : Type} {A : FloatArith F} (acosf : F -> F) :
  (forall x y : F, f_mul x y = f_mul y x) ->
  forall bx by' bz ax ay az,
    CalcularAnguloDesviacion acosf bx by' bz ax ay az
    = CalcularAnguloDesviacion acosf ax ay az bx by' bz.
Proof.
  intros Hc bx by' bz ax ay az. unfold CalcularAnguloDesviacion.
  rewrite (Hc ax bx), (Hc ay by'), (Hc az bz).
  rewrite (Hc (f_sqrt (f_add (f_add (f_mul bx bx) (f_mul by' by')) (f_mul bz bz)))).
  reflexivity.
Qed.

Lemma Binary32_mul_comm (x y : Binary32.float32) :
  Binary32.mul x y = Binary32.mul y x.
Proof.
  unfold Binary32.mul, SFmul.
  destruct x as [sx|sx| |sx mx ex], y as [sy|sy| |sy my ey];
    try reflexivity; try (now rewrite xorb_comm).
  now rewrite xorb_comm, Pos.mul_comm, Z.add_comm.
Qed.

(** X16.  The deviation does not depend on which vector is the reference:
    exchanging the reference and the reading gives the same result, on
    binary32 for any [acosf] and in exact arithmetic. *)
Theorem angle_symmetric :
  (forall (acosf : Binary32.float32 -> Binary32.float32) bx by' bz ax ay az,
      CalcularAnguloDesviacion (A := binary32) acosf bx by' bz ax ay az
      = CalcularAnguloDesviacion (A := binary32) acosf ax ay az bx by' bz) /\
  (forall bx by' bz ax ay az : R,
      CalcularAnguloDesviacion (A := ideal) acos bx by' bz ax ay az
      = CalcularAnguloDesviacion (A := ideal) acos ax ay az bx by' bz).
Proof.
  split; intros; apply CalcularAnguloDesviacion_sym.
  - exact Binary32_mul_comm.
  - exact Rmult_comm.
Qed.

End AngleSymmetry.

Section ZeroReference.

#[local] Existing Instance binary32.

Implicit Types (x y : Binary32.float32).

Lemma mul_zero_r x s : cero_o_nan (Binary32.mul x (S754_zero s)) = true.
Proof. destruct x; reflexivity. Qed.

Lemma mul_zero_l x : cero_o_nan (Binary32.mul (S754_zero false) x) = true.
Proof. destruct x; reflexivity. Qed.

Lemma add_cero_o_nan x y :
  cero_o_nan x = true -> cero_o_nan y = true ->
  cero_o_nan (Binary32.add x y) = true.
Proof.
  destruct x as [sx|sx| |sx mx ex], y as [sy|sy| |sy my ey];
    try discriminate; intros _ _; try reflexivity.
  destruct sx, sy; reflexivity.
Qed.

Lemma div_cero_o_nan x y :
  cero_o_nan x = true -> cero_o_nan y = true -> Binary32.div x y = S754_nan.
Proof.
  destruct x as [sx|sx| |sx mx ex], y as [sy|sy| |sy my ey];
    try discriminate; intros _ _; reflexivity.
Qed.

Lemma norma_cero s1 s2 s3 :
  Binary32.sqrt
    (Binary32.add
       (Binary32.add (Binary32.mul (S754_zero s1) (S754_zero s1))
          (Binary32.mul (S754_zero s2) (S754_zero s2)))
       (Binary32.mul (S754_zero s3) (S754_zero s3)))
  = S754_zero false.
Proof. destruct s1, s2, s3; reflexivity. Qed.

(** X17.  On binary32, with a reference vector whose three components are
    zero (of either sign), for every reading the cosine is 0/0 or worse: the
    argument handed to [acosf] is NaN, never a number.  If [acosf] answers
    NaN to NaN, the angle is NaN and the classifier does not count it as
    over the threshold. *)
Theorem zero_reference_gives_nan (acosf : Binary32.float32 -> Binary32.float32)
    s1 s2 s3 ax ay az :
  let a := CalcularAnguloDesviacion acosf
             (S754_zero s1) (S754_zero s2) (S754_zero s3) ax ay az in
  a = Binary32.mul (acosf S754_nan) (Binary32.div (f_lit 180 0) (f_lit 314159 5)) /\
  (acosf S754_nan = S754_nan -> a = S754_nan /\ sobre_umbral a = false).
Proof.
  cbv zeta.
  assert (E : CalcularAnguloDesviacion acosf
                (S754_zero s1) (S754_zero s2) (S754_zero s3) ax ay az
              = Binary32.mul (acosf S754_nan)
                  (Binary32.div (f_lit 180 0) (f_lit 314159 5))).
  { unfold CalcularAnguloDesviacion. cbn [f_add f_mul f_div f_sqrt f_gt f_lt binary32].
    rewrite norma_cero.
    rewrite (div_cero_o_nan _ _
               (add_cero_o_nan _ _
                  (add_cero_o_nan _ _ (mul_zero_r ax s1) (mul_zero_r ay s2))
                  (mul_zero_r az s3))
               (mul_zero_l _)).
    reflexivity. }
  split; [exact E|]. intros H. rewrite E, H. split; reflexivity.
Qed.

End ZeroReference.

(** ** The delay of the telemetry task *)

(** X18.  For a tick rate that divides 1000, the telemetry task passes to
    [vTaskDelay] the number of ticks of 100 ms, the same that
    [pdMS_TO_TICKS(100)] gives (10 ticks at 100 Hz). *)
Theorem telemetry_delay_is_100ms hz :
  0 < hz -> 1000 mod hz = 0 ->
  Bluetooth_delay hz = pdMS_TO_TICKS hz 100.
Proof.
  intros Hhz Hdiv.
  unfold Bluetooth_delay, portTICK_PERIOD_MS, pdMS_TO_TICKS, uint32.
  pose proof (Z.div_mod 1000 hz ltac:(lia)) as Hd. rewrite Hdiv in Hd.
  set (d := 1000 / hz) in *.
  assert (Hd1 : 1 <= d) by nia.
  assert (Hle : hz <= 1000) by nia.
  rewrite Z.mod_small by lia.
  pose proof (Z.div_mod 100 d ltac:(lia)) as Hq.
  pose proof (Z.mod_pos_bound 100 d ltac:(lia)) as Hr.
  set (q := 100 / d) in *. set (r := 100 mod d) in *.
  apply (Z.div_unique (100 * hz) 1000 q (r * hz)); nia.
Qed.

Lemma telemetry_delay_is_100ms_witness :
  Bluetooth_delay 100 = pdMS_TO_TICKS 100 100.
Proof. apply telemetry_delay_is_100ms; [lia|reflexivity]. Defined.

(** ** Concrete runs *)

Section Runs.

#[local] Existing Instance ideal.

Import Ejemplo2.

Lemma idle_until_calibrated_witness :
  let g := shared (run 100 acos
                     [Muestreo (hd Ejemplo.lectura_ult Ejemplo.lecturas_pre);
                      Evaluacion; Indicacion]
                     (system0 50 apagados)) in
  estado g = (0, 0) /\ angulo (datos_acelerometro g) = f_of_Z 0.
Proof. apply (idle_until_calibrated (A := ideal) 100 acos). reflexivity. Defined.

Lemma calibration_is_final_witness :
  let s := run 100 acos calibracion (system0 50 apagados) in
  let s' := run 100 acos [Evaluacion; Muestreo Ejemplo.lectura_ult; Indicacion] s in
  calibrado (shared s') = true /\
  base_x (shared s') = base_x (shared s) /\
  base_y (shared s') = base_y (shared s) /\
  base_z (shared s') = base_z (shared s) /\
  locals s' = locals s.
Proof. apply (calibration_is_final (A := ideal) 100 acos). reflexivity. Defined.

Lemma calibration_completes_witness :
  calibrado (snd (muestrear 3 acos lecturas_lentas (locals0 0, globals0))) = true.
Proof.
  apply (calibration_completes (A := ideal) 3 acos).
  - cbn. lia.
  - cbn. lia.
Defined.

Lemma reference_divisor_wraps_witness :
  let ins := Ejemplo.lecturas_pre ++ [Ejemplo.lectura_ult] in
  let s := muestrear 100 acos ins (locals0 50, globals0) in
  muestras (fst s) = uint16 3 /\
  base_x (snd s) = f_div (f_sum (suavizadas raw_x ins)) (f_of_Z (uint16 3)) /\
  base_y (snd s) = f_div (f_sum (suavizadas raw_y ins)) (f_of_Z (uint16 3)) /\
  base_z (snd s) = f_div (f_sum (suavizadas raw_z ins)) (f_of_Z (uint16 3)).
Proof.
  apply (reference_divisor_wraps (A := ideal) 100 acos Ejemplo.lecturas_pre
           Ejemplo.lectura_ult 50).
  - repeat constructor.
  - cbv. discriminate.
Defined.

End Runs.
